(** * Grocery Shop API: order placement, listings and seeding

    A shallow embedding of [main.py] and [schemas.py].  Python [int] is [Z],
    Python [float] is the kernel's binary64 [float], a MongoDB document is a
    record whose fields are optional (a stored document may lack any of them,
    which is why the handlers read them with [dict.get]), a collection is the
    list of its documents in insertion order, and a request handler is a
    computation in a state-and-exception monad over the global handle [db]. *)

From Stdlib Require Import ZArith NArith List String Ascii Bool Lia.
From Stdlib Require Import PrimFloat SpecFloat FloatOps.
Import ListNotations.

Set Warnings "-inexact-float".
Local Open Scope string_scope.
Local Open Scope Z_scope.

(** ** Python numbers *)

(** [float(n)] for an [int]: the nearest binary64 value, ties to even;
    [None] is [OverflowError: int too large to convert to float]. *)
Definition float_of_int (n : Z) : option float :=
  match binary_normalize prec emax n 0 false with
  | S754_infinity _ => None
  | r => Some (SF2Prim r)
  end.

(** The integer nearest to [num / den] (for [0 < den]), ties to even. *)
Definition div_half_even (num den : Z) : Z :=
  let q := num / den in
  match (2 * (num mod den) ?= den) with
  | Lt => q
  | Gt => q + 1
  | Eq => if Z.even q then q else q + 1
  end.

(** [round(x, 2)] on a float: the exact value of [x] is rounded to the nearest
    multiple of 1/100 (ties to even), and that decimal is converted back to the
    nearest float; infinities, NaN and zeros round to themselves. *)
Definition round2 (x : float) : float :=
  match Prim2SF x with
  | S754_finite s m e =>
      let hundredths :=
        if 0 <=? e then Zpos m * 100 * 2 ^ e
        else div_half_even (Zpos m * 100) (2 ^ (- e)) in
      match hundredths with
      | Zpos h => SF2Prim (SFdiv prec emax (S754_finite s h 0) (S754_finite false 100 0))
      | _ => SF2Prim (S754_zero s)
      end
  | _ => x
  end.

(** [d.get(key, default)] on a document whose field [key] may be absent. *)
Definition dict_get {A : Type} (field : option A) (default : A) : A :=
  match field with
  | Some v => v
  | None => default
  end.

(** ** bson.ObjectId *)

(** An ObjectId holds the bytes it was made from: 12 of them in every
    identifier the store hands out, whose string form is 24 hexadecimal
    digits.  A 12-byte identifier is modelled by its value, below [2 ^ 96];
    an identifier of [k < 12] bytes and value [v], which only
    [ObjectId(id_str)] can make, by [2 ^ 96 + 2 ^ (8 * k) + v], so that
    identifiers of different bytes are different numbers. *)
Definition ObjectId := N.

Definition hex_digit (c : ascii) : option N :=
  let n := N_of_ascii c in
  if ((48 <=? n) && (n <=? 57))%N then Some (n - 48)%N
  else if ((97 <=? n) && (n <=? 102))%N then Some (n - 87)%N
  else if ((65 <=? n) && (n <=? 70))%N then Some (n - 55)%N
  else None.

(** The number that a string of hexadecimal digits denotes, continuing
    from [acc]. *)
Fixpoint hex_value (s : string) (acc : N) : option N :=
  match s with
  | EmptyString => Some acc
  | String c rest =>
      match hex_digit c with
      | Some d => hex_value rest (16 * acc + d)%N
      | None => None
      end
  end.

(** ASCII whitespace: blank, tab, line feed, vertical tab, form feed,
    carriage return. *)
Definition is_space (c : ascii) : bool :=
  let n := N_of_ascii c in
  ((n =? 32) || ((9 <=? n) && (n <=? 13)))%N.

(** [bytes.fromhex(s)]: one byte per pair of hexadecimal digits, in either
    case; whitespace is skipped in front of a pair (and at the end), not
    inside one.  [None] stands for [ValueError]. *)
Fixpoint fromhex (s : string) : option (list N) :=
  match s with
  | EmptyString => Some []
  | String c rest =>
      if is_space c then fromhex rest
      else
        match hex_digit c, rest with
        | Some hi, String c' rest' =>
            match hex_digit c' with
            | Some lo => option_map (cons (16 * hi + lo)%N) (fromhex rest')
            | None => None
            end
        | _, _ => None
        end
  end.

(** The identifier that holds the bytes [bs] (at most 12 of them). *)
Definition ObjectId_of_bytes (bs : list N) : ObjectId :=
  let v := fold_left (fun acc b => (256 * acc + b)%N) bs 0%N in
  if (List.length bs =? 12)%nat then v
  else (2 ^ 96 + 2 ^ (8 * N.of_nat (List.length bs)) + v)%N.

(** [ObjectId(id_str)] for a [str]: a string of 24 characters that
    [bytes.fromhex] reads; [None] stands for [bson.errors.InvalidId].  With
    24 hexadecimal digits the identifier has 12 bytes; with whitespace among
    the 24 characters it has fewer, and is the [_id] of no document. *)
Definition ObjectId_of_str (id_str : string) : option ObjectId :=
  if (String.length id_str =? 24)%nat
  then option_map ObjectId_of_bytes (fromhex id_str)
  else None.

Definition hex_char (d : N) : ascii :=
  if (d <? 10)%N then ascii_of_N (48 + d) else ascii_of_N (87 + d).

Fixpoint hex_digits (n : nat) (v : N) (acc : string) : string :=
  match n with
  | O => acc
  | S k => hex_digits k (v / 16)%N (String (hex_char (v mod 16)%N) acc)
  end.

(** [str(ObjectId)] *)
Definition ObjectId_str (o : ObjectId) : string := hex_digits 24 o "".

(** ** schemas.py: the stored documents and the request models *)

Module Product.
(** The fields of [class Product]; every one may be missing in a stored
    document. *)
Record fields := {
    name : option string;
    price : option float;
    unit : option string;
    stock : option Z;
    image : option string;
    category : option string;
    in_stock : option bool
  }.
(** A document of the collection ["product"]. *)
Record doc := { _id : ObjectId; body : fields }.
(** An element of the product listing: ["_id"] popped, ["id"] added. *)
Record listed := { id : string; listed_body : fields }.
End Product.

Module Slot.
Record fields := {
    label : option string;
    capacity : option Z;
    booked : option Z
  }.
Record doc := { _id : ObjectId; body : fields }.
Record listed := { id : string; listed_body : fields; available : Z }.
End Slot.

Module OrderItem.
(** [class OrderItem]: an item of the request. *)
Record t := { product_id : string; qty : Z }.
End OrderItem.

Module Order.
(** An element of [items_doc]. *)
Record item := {
    product_id : string;
    name : option string;
    unit : option string;
    price : float;
    qty : Z;
    line_total : float
  }.
(** [order_doc] *)
Record fields := {
    customer_name : string;
    phone : string;
    slot_id : string;
    items : list item;
    note : option string;
    total : float;
    status : string
  }.
Record doc := { _id : ObjectId; body : fields }.
End Order.

Module CreateOrderRequest.
Record t := {
    customer_name : string;
    phone : string;
    slot_id : string;
    items : list OrderItem.t;
    note : option string
  }.
End CreateOrderRequest.

(** The response of [POST /orders]. *)
Record OrderCreated := {
  order_id : string;
  resp_total : float;
  resp_status : string
}.

(** What pydantic checks before the handler runs: [qty: int = Field(..., ge=1)]
    on every item, and nothing about the length of [items: List[OrderItem]]. *)
Definition OrderItem_valid (it : OrderItem.t) : bool := 1 <=? OrderItem.qty it.

Definition CreateOrderRequest_valid (payload : CreateOrderRequest.t) : bool :=
  forallb OrderItem_valid (CreateOrderRequest.items payload).

(** ** The database handle and the handler monad *)

(** The three collections, and the counter new ObjectIds are drawn from. *)
Record Database := {
  product : list Product.doc;
  slot : list Slot.doc;
  order : list Order.doc;
  next_oid : N
}.

(** The global [db]: [None] when no database is configured. *)
Definition World := option Database.

Inductive exn :=
| HTTPException (status_code : Z) (detail : string)
| TypeError
| OverflowError
| DatabaseUnavailable.

(** A handler reads and writes the world and returns or raises. *)
Definition M (A : Type) : Type := World -> (exn + A) * World.

Definition ret {A : Type} (a : A) : M A := fun w => (inr a, w).

Definition raise {A : Type} (e : exn) : M A := fun w => (inl e, w).

Definition bind {A B : Type} (c : M A) (k : A -> M B) : M B :=
  fun w =>
    match c w with
    | (inr a, w') => k a w'
    | (inl e, w') => (inl e, w')
    end.

Notation "x <- c ;; k" := (bind c (fun x => k))
  (at level 61, c at next level, right associativity).
Notation "c ;;; k" := (bind c (fun _ => k))
  (at level 61, right associativity).

Definition result_of {A : Type} (r : (exn + A) * World) : exn + A := fst r.
Definition world_of {A : Type} (r : (exn + A) * World) : World := snd r.

(** ** pymongo, on the list of documents of a collection *)

(** [coll.find_one({"_id": o})]: the first document whose [_id] is [o]. *)
Definition find_slot (o : ObjectId) (l : list Slot.doc) : option Slot.doc :=
  find (fun s => N.eqb (Slot._id s) o) l.

(** The filter [{"_id": o, "in_stock": True}] on a product document. *)
Definition in_stock_true (p : Product.doc) : bool :=
  match Product.in_stock (Product.body p) with
  | Some true => true
  | _ => false
  end.

Definition find_product_in_stock (o : ObjectId) (l : list Product.doc) : option Product.doc :=
  find (fun p => N.eqb (Product._id p) o && in_stock_true p) l.

(** [{"$inc": {"booked": 1}}] on one document: an absent field counts as 0. *)
Definition inc_booked (s : Slot.doc) : Slot.doc :=
  {| Slot._id := Slot._id s;
     Slot.body :=
       {| Slot.label := Slot.label (Slot.body s);
          Slot.capacity := Slot.capacity (Slot.body s);
          Slot.booked := Some (dict_get (Slot.booked (Slot.body s)) 0 + 1) |} |}.

(** [coll.update_one({"_id": o}, {"$inc": {"booked": 1}})]: only the first
    match is updated. *)
Fixpoint update_one_inc_booked (o : ObjectId) (l : list Slot.doc) : list Slot.doc :=
  match l with
  | [] => []
  | s :: rest =>
      if N.eqb (Slot._id s) o then inc_booked s :: rest
      else s :: update_one_inc_booked o rest
  end.

(** [db[name]]: subscripting the global handle; [None] cannot be subscripted. *)
Definition db_getitem : M Database :=
  fun w =>
    match w with
    | Some d => (inr d, w)
    | None => (inl TypeError, w)
    end.

Definition db_write (d : Database) : M unit := fun _ => (inr tt, Some d).

(** [db["slot"].update_one({"_id": o}, {"$inc": {"booked": 1}})] *)
Definition slot_update_one_inc_booked (o : ObjectId) : M unit :=
  d <- db_getitem ;;
  db_write {| product := product d;
              slot := update_one_inc_booked o (slot d);
              order := order d;
              next_oid := next_oid d |}.

(** [for x in l: body(x)] *)
Fixpoint for_each {A : Type} (l : list A) (body : A -> M unit) : M unit :=
  match l with
  | [] => ret tt
  | x :: rest => body x ;;; for_each rest body
  end.

(** [x * n] for a float [x] and an int [n]. *)
Definition float_mul_int (x : float) (n : Z) : M float :=
  match float_of_int n with
  | Some y => ret (x * y)%float
  | None => raise OverflowError
  end.

(** [float(v)] where [v] is the result of [dict.get] without a default. *)
Definition float_of_field (v : option float) : M float :=
  match v with
  | Some x => ret x
  | None => raise TypeError
  end.

(** ** database.py *)

(** Modelled from the spec: the module [database] ([db], [create_document],
    [get_documents]) is imported by [main.py] and is not among the sources.
    The spec has the store hold three record kinds that the handlers query
    and mutate directly, has order placement persist exactly one order record
    and return the new order's identifier, and has an unreachable persistence
    layer surface as [DatabaseUnavailable].  [create_document] appends the
    document under a fresh identifier and returns [str] of it;
    [get_documents] returns the documents that match the filter. *)
Definition database_handle : M Database :=
  fun w =>
    match w with
    | Some d => (inr d, w)
    | None => (inl DatabaseUnavailable, w)
    end.

(** Modelled from the spec: [create_document("product", data)]. *)
Definition create_document_product (data : Product.fields) : M string :=
  d <- database_handle ;;
  db_write {| product := (product d ++ [ {| Product._id := next_oid d; Product.body := data |} ])%list;
              slot := slot d;
              order := order d;
              next_oid := N.succ (next_oid d) |} ;;;
  ret (ObjectId_str (next_oid d)).

(** Modelled from the spec: [create_document("slot", data)]. *)
Definition create_document_slot (data : Slot.fields) : M string :=
  d <- database_handle ;;
  db_write {| product := product d;
              slot := (slot d ++ [ {| Slot._id := next_oid d; Slot.body := data |} ])%list;
              order := order d;
              next_oid := N.succ (next_oid d) |} ;;;
  ret (ObjectId_str (next_oid d)).

(** An integer the store can hold: a signed integer of 8 bytes. *)
Definition int64 (z : Z) : bool := (- 2 ^ 63 <=? z) && (z <? 2 ^ 63).

(** What the store's encoder requires of an order document: of the values
    [create_order] puts in it, the integers are the quantities. *)
Definition bson_encodable (data : Order.fields) : bool :=
  forallb (fun it => int64 (Order.qty it)) (Order.items data).

(** Modelled from the spec: [create_document("order", data)].  The insert
    encodes the document first: an integer of more than 8 bytes raises
    [OverflowError] and nothing is written. *)
Definition create_document_order (data : Order.fields) : M string :=
  d <- database_handle ;;
  if bson_encodable data
  then
    db_write {| product := product d;
                slot := slot d;
                order := (order d ++ [ {| Order._id := next_oid d; Order.body := data |} ])%list;
                next_oid := N.succ (next_oid d) |} ;;;
    ret (ObjectId_str (next_oid d))
  else raise OverflowError.

(** Modelled from the spec: [get_documents("product", filter_dict)]. *)
Definition get_documents_product (filter_dict : Product.doc -> bool) : M (list Product.doc) :=
  d <- database_handle ;;
  ret (filter filter_dict (product d)).

(** Modelled from the spec: [get_documents("slot", filter_dict)]. *)
Definition get_documents_slot (filter_dict : Slot.doc -> bool) : M (list Slot.doc) :=
  d <- database_handle ;;
  ret (filter filter_dict (slot d)).

(** ** main.py *)

(** [oid(id_str)] *)
Definition oid (id_str : string) : M ObjectId :=
  match ObjectId_of_str id_str with
  | Some o => ret o
  | None => raise (HTTPException 400 "Invalid ID format")
  end.

Definition seed_product (n : string) (p : float) (u : string) (s : Z) (c img : string)
  : Product.fields :=
  {| Product.name := Some n; Product.price := Some p; Product.unit := Some u;
     Product.stock := Some s; Product.image := Some img;
     Product.category := Some c; Product.in_stock := Some true |}.

(** The list [products] of [seed]. *)
Definition seed_products : list Product.fields :=
  [ seed_product "Bananas" 0.79 "each" 200 "Produce"
      "https://images.unsplash.com/photo-1571772996211-2f02c9727629?w=400&q=80";
    seed_product "Milk" 2.49 "1L" 120 "Dairy"
      "https://images.unsplash.com/photo-1580910051074-3eb694886505?w=400&q=80";
    seed_product "Bread" 1.99 "loaf" 80 "Bakery"
      "https://images.unsplash.com/photo-1542838132-92c53300491e?w=400&q=80";
    seed_product "Eggs" 3.49 "12" 90 "Dairy"
      "https://images.unsplash.com/photo-1517959105821-eaf2591984dd?w=400&q=80" ].

Definition seed_slot (l : string) (c b : Z) : Slot.fields :=
  {| Slot.label := Some l; Slot.capacity := Some c; Slot.booked := Some b |}.

(** The list [slots] of [seed]. *)
Definition seed_slots : list Slot.fields :=
  [ seed_slot "Today 10:00–10:30" 10 0;
    seed_slot "Today 10:30–11:00" 10 0;
    seed_slot "Today 5:00–5:30" 12 0;
    seed_slot "Tomorrow 10:00–10:30" 10 0;
    seed_slot "Tomorrow 5:00–5:30" 12 0 ].

(** [POST /seed] *)
Definition seed : M string :=
  fun w =>
    match w with
    | None => raise (HTTPException 500 "Database not available") w
    | Some _ =>
        (d <- db_getitem ;;
         (if (List.length (product d) =? 0)%nat
          then for_each seed_products (fun p => create_document_product p ;;; ret tt)
          else ret tt) ;;;
         d <- db_getitem ;;
         (if (List.length (slot d) =? 0)%nat
          then for_each seed_slots (fun s => create_document_slot s ;;; ret tt)
          else ret tt) ;;;
         ret "Seed complete") w
    end.

(** [GET /products] *)
Definition list_products : M (list Product.listed) :=
  docs <- get_documents_product in_stock_true ;;
  ret (map (fun d => {| Product.id := ObjectId_str (Product._id d);
                        Product.listed_body := Product.body d |}) docs).

(** [max(s.get("capacity", 0) - s.get("booked", 0), 0)] *)
Definition slot_available (s : Slot.doc) : Z :=
  Z.max (dict_get (Slot.capacity (Slot.body s)) 0 - dict_get (Slot.booked (Slot.body s)) 0) 0.

(** [GET /slots] *)
Definition list_slots : M (list Slot.listed) :=
  slots <- get_documents_slot (fun _ => true) ;;
  ret (map (fun s => {| Slot.id := ObjectId_str (Slot._id s);
                        Slot.listed_body := Slot.body s;
                        Slot.available := slot_available s |}) slots).

(** The body of [for item in payload.items], for one item: the running
    [total] and [items_doc] go in and come out. *)
Definition order_item (item : OrderItem.t) (acc : float * list Order.item)
  : M (float * list Order.item) :=
  d <- db_getitem ;;
  o <- oid (OrderItem.product_id item) ;;
  match find_product_in_stock o (product d) with
  | None =>
      raise (HTTPException 404 ("Product not found: " ++ OrderItem.product_id item))
  | Some prod =>
      line_total <- float_mul_int (dict_get (Product.price (Product.body prod)) 0%float)
                                  (OrderItem.qty item) ;;
      let total := (fst acc + line_total)%float in
      price <- float_of_field (Product.price (Product.body prod)) ;;
      ret (total,
           (snd acc ++ [ {| Order.product_id := OrderItem.product_id item;
                           Order.name := Product.name (Product.body prod);
                           Order.unit := Product.unit (Product.body prod);
                           Order.price := price;
                           Order.qty := OrderItem.qty item;
                           Order.line_total := line_total |} ])%list)
  end.

Fixpoint order_items (items : list OrderItem.t) (acc : float * list Order.item)
  : M (float * list Order.item) :=
  match items with
  | [] => ret acc
  | item :: rest => acc' <- order_item item acc ;; order_items rest acc'
  end.

(** [POST /orders] *)
Definition create_order (payload : CreateOrderRequest.t) : M OrderCreated :=
  d <- db_getitem ;;
  o <- oid (CreateOrderRequest.slot_id payload) ;;
  match find_slot o (slot d) with
  | None => raise (HTTPException 404 "Slot not found")
  | Some s =>
      let available := slot_available s in
      if available <=? 0 then raise (HTTPException 400 "Selected slot is full")
      else
        acc <- order_items (CreateOrderRequest.items payload) (0%float, []) ;;
        let order_doc :=
          {| Order.customer_name := CreateOrderRequest.customer_name payload;
             Order.phone := CreateOrderRequest.phone payload;
             Order.slot_id := CreateOrderRequest.slot_id payload;
             Order.items := snd acc;
             Order.note := CreateOrderRequest.note payload;
             Order.total := round2 (fst acc);
             Order.status := "confirmed" |} in
        order_id <- create_document_order order_doc ;;
        slot_update_one_inc_booked (Slot._id s) ;;;
        ret {| order_id := order_id;
               resp_total := Order.total order_doc;
               resp_status := "confirmed" |}
  end.

(** ** The vocabulary of the properties *)

(** [booked <= capacity], each field read as the handlers read it. *)
Definition slot_within_capacity (s : Slot.doc) : Prop :=
  dict_get (Slot.booked (Slot.body s)) 0 <= dict_get (Slot.capacity (Slot.body s)) 0.

(** The request's [slot_id] is a well-formed identifier and names [s]. *)
Definition names_slot (d : Database) (payload : CreateOrderRequest.t) (s : Slot.doc) : Prop :=
  exists o, ObjectId_of_str (CreateOrderRequest.slot_id payload) = Some o /\
            find_slot o (slot d) = Some s.

(** The item's [product_id] is well formed and [p] is the in-stock product it
    names. *)
Definition item_product (d : Database) (item : OrderItem.t) (p : Product.doc) : Prop :=
  exists o, ObjectId_of_str (OrderItem.product_id item) = Some o /\
            find_product_in_stock o (product d) = Some p.



(** The item can be ordered: its product is in stock and has a stored
    price, and its quantity is an integer the store can hold (such an
    integer also converts to a float). *)
Definition item_priced (d : Database) (item : OrderItem.t) : Prop :=
  exists p x, item_product d item p /\
              Product.price (Product.body p) = Some x /\
              int64 (OrderItem.qty item) = true.


(** The persisted item [it] is the snapshot of the request item [item]: the
    name, unit and price of its product as stored in [d], the quantity, and
    [line_total = price * qty]. *)
Definition snapshot_of (d : Database) (item : OrderItem.t) (it : Order.item) : Prop :=
  exists p q, item_product d item p /\
              Product.price (Product.body p) = Some (Order.price it) /\
              float_of_int (OrderItem.qty item) = Some q /\
              Order.line_total it = (Order.price it * q)%float /\
              Order.qty it = OrderItem.qty item /\
              Order.product_id it = OrderItem.product_id item /\
              Order.name it = Product.name (Product.body p) /\
              Order.unit it = Product.unit (Product.body p).

(** The order document [create_order] builds from the request and the
    result of its loop. *)
Definition order_doc_of (payload : CreateOrderRequest.t) (acc : float * list Order.item)
  : Order.fields :=
  {| Order.customer_name := CreateOrderRequest.customer_name payload;
     Order.phone := CreateOrderRequest.phone payload;
     Order.slot_id := CreateOrderRequest.slot_id payload;
     Order.items := snd acc;
     Order.note := CreateOrderRequest.note payload;
     Order.total := round2 (fst acc);
     Order.status := "confirmed" |}.

(** The store after an order on slot [s] with document [doc] was placed. *)
Definition after_order (d : Database) (s : Slot.doc) (doc : Order.fields) : Database :=
  {| product := product d;
     slot := update_one_inc_booked (Slot._id s) (slot d);
     order := (order d ++ [ {| Order._id := next_oid d; Order.body := doc |} ])%list;
     next_oid := N.succ (next_oid d) |}.

(** The response to an order whose loop ended with [acc]. *)
Definition created (d : Database) (acc : float * list Order.item) : OrderCreated :=
  {| order_id := ObjectId_str (next_oid d);
     resp_total := round2 (fst acc);
     resp_status := "confirmed" |}.

(** The same product with another stock count. *)
Definition set_stock (f : Product.doc -> option Z) (p : Product.doc) : Product.doc :=
  {| Product._id := Product._id p;
     Product.body :=
       {| Product.name := Product.name (Product.body p);
          Product.price := Product.price (Product.body p);
          Product.unit := Product.unit (Product.body p);
          Product.stock := f p;
          Product.image := Product.image (Product.body p);
          Product.category := Product.category (Product.body p);
          Product.in_stock := Product.in_stock (Product.body p) |} |}.

(** The same store with other stock counts. *)
Definition restock (f : Product.doc -> option Z) (d : Database) : Database :=
  {| product := map (set_stock f) (product d);
     slot := slot d;
     order := order d;
     next_oid := next_oid d |}.

(** ** Stores and requests the examples run on *)

Definition empty_db : Database :=
  {| product := []; slot := []; order := []; next_oid := 0%N |}.

(** The demo store: [seed] run on the empty store.  Bananas, Milk, Bread and
    Eggs get the identifiers 0 to 3 and the five slots 4 to 8. *)
Definition demo_world : World := world_of (seed (Some empty_db)).

Definition demo_db : Database := dict_get demo_world empty_db.

Definition request (slot_id : string) (items : list OrderItem.t) : CreateOrderRequest.t :=
  {| CreateOrderRequest.customer_name := "Ann";
     CreateOrderRequest.phone := "555-0100";
     CreateOrderRequest.slot_id := slot_id;
     CreateOrderRequest.items := items;
     CreateOrderRequest.note := None |}.

Definition item (product_id : string) (qty : Z) : OrderItem.t :=
  {| OrderItem.product_id := product_id; OrderItem.qty := qty |}.

Definition bananas_id : string := "000000000000000000000000".
Definition milk_id : string := "000000000000000000000001".
Definition slot4_id : string := "000000000000000000000004".


(** The demo catalog with a single slot, which is full. *)
Definition full_db : Database :=
  {| product := product demo_db;
     slot := [ {| Slot._id := 4%N; Slot.body := seed_slot "Today 10:00–10:30" 10 10 |} ];
     order := [];
     next_oid := 9%N |}.

(** ** schemas.py: the constraints of [class Slot] *)

(** What validating a document as a [Slot] checks: [label] is required, [capacity] is required and
    [ge=1], [booked] defaults to 0 and is [ge=0]. *)
Definition Slot_valid (f : Slot.fields) : bool :=
  match Slot.label f, Slot.capacity f with
  | Some _, Some c => (1 <=? c) && (0 <=? dict_get (Slot.booked f) 0)
  | _, _ => false
  end.

(** ** main.py: the two handlers that do not use the collections *)

(** The response of [GET /test]. *)
Record TestResponse := {
  backend : string;
  database : string;
  database_url : option string;
  database_name : option string;
  connection_status : string;
  collections : list string
}.

Definition set_database (v : string) (r : TestResponse) : TestResponse :=
  {| backend := backend r; database := v; database_url := database_url r;
     database_name := database_name r; connection_status := connection_status r;
     collections := collections r |}.

Definition set_database_url (v : option string) (r : TestResponse) : TestResponse :=
  {| backend := backend r; database := database r; database_url := v;
     database_name := database_name r; connection_status := connection_status r;
     collections := collections r |}.

Definition set_database_name (v : option string) (r : TestResponse) : TestResponse :=
  {| backend := backend r; database := database r; database_url := database_url r;
     database_name := v; connection_status := connection_status r;
     collections := collections r |}.

Definition set_connection_status (v : string) (r : TestResponse) : TestResponse :=
  {| backend := backend r; database := database r; database_url := database_url r;
     database_name := database_name r; connection_status := v;
     collections := collections r |}.

Definition set_collections (v : list string) (r : TestResponse) : TestResponse :=
  {| backend := backend r; database := database r; database_url := database_url r;
     database_name := database_name r; connection_status := connection_status r;
     collections := v |}.

(** The truth value of [os.getenv(name)]: unset and empty are both false. *)
Definition env_set (v : option string) : bool :=
  match v with
  | Some (String _ _) => true
  | _ => false
  end.

(** [s[:n]] on a [str] given character by character (each element of the
    list is one character of the string). *)
Definition str_slice (n : nat) (chars : list string) : string :=
  String.concat "" (firstn n chars).

(** [GET /test].  [getenv] is [os.getenv]; [list_collection_names] is what
    [db.list_collection_names()] does during the call: it returns the names
    ([inr]) or raises an exception whose [str] is the given characters
    ([inl]).  The outer [try] guards statements that cannot raise. *)
Definition test_database (getenv : string -> option string)
           (list_collection_names : list string + list string) : M TestResponse :=
  fun w =>
    let response :=
      {| backend := "✅ Running";
         database := "❌ Not Available";
         database_url := None;
         database_name := None;
         connection_status := "Not Connected";
         collections := [] |} in
    (inr
       match w with
       | Some _ =>
           let response := set_database "✅ Available" response in
           let response :=
             set_database_url
               (Some (if env_set (getenv "DATABASE_URL") then "✅ Set" else "❌ Not Set")) response in
           let response :=
             set_database_name
               (Some (if env_set (getenv "DATABASE_NAME") then "✅ Set" else "❌ Not Set")) response in
           let response := set_connection_status "Connected" response in
           match list_collection_names with
           | inr names =>
               let response := set_collections (firstn 10 names) response in
               set_database "✅ Connected & Working" response
           | inl e =>
               set_database ("⚠️  Connected but Error: " ++ str_slice 50 e)%string response
           end
       | None => set_database "⚠️  Available but not initialized" response
       end, w).

(** [GET /] *)
Definition root : M string := ret "Grocery Shop API running".

(** ** The routes *)

(** One request to the service: the route, with the request body for
    [POST /orders] and, for [GET /test], what the environment answers. *)
Inductive call :=
| POST_seed
| GET_products
| GET_slots
| POST_orders (payload : CreateOrderRequest.t)
| GET_test (getenv : string -> option string)
           (list_collection_names : list string + list string)
| GET_root.

(** The world after the handler of a request has run. *)
Definition serve (c : call) (w : World) : World :=
  match c with
  | POST_seed => world_of (seed w)
  | GET_products => world_of (list_products w)
  | GET_slots => world_of (list_slots w)
  | POST_orders payload => world_of (create_order payload w)
  | GET_test getenv names => world_of (test_database getenv names w)
  | GET_root => world_of (root w)
  end.

(** The world after a sequence of requests, served one after the other. *)
Fixpoint serve_all (cs : list call) (w : World) : World :=
  match cs with
  | [] => w
  | c :: rest => serve_all rest (serve c w)
  end.

(** The world after [n] requests [POST /orders] with the same body. *)
Fixpoint place_orders (n : nat) (payload : CreateOrderRequest.t) (w : World) : World :=
  match n with
  | O => w
  | S k => place_orders k payload (world_of (create_order payload w))
  end.

(** The sum of the [booked] counters of a slot collection. *)
Definition booked_total (l : list Slot.doc) : Z :=
  fold_right (fun s acc => dict_get (Slot.booked (Slot.body s)) 0 + acc) 0 l.

(** An ObjectId is 12 bytes. *)
Definition ObjectId_ok (o : ObjectId) : Prop := (o < 2 ^ 96)%N.

(** ** The store after [seed] *)

(** The store after one product, or one slot, was inserted. *)
Definition insert_product (d : Database) (p : Product.fields) : Database :=
  {| product := (product d ++ [ {| Product._id := next_oid d; Product.body := p |} ])%list;
     slot := slot d;
     order := order d;
     next_oid := N.succ (next_oid d) |}.

Definition insert_slot (d : Database) (s : Slot.fields) : Database :=
  {| product := product d;
     slot := (slot d ++ [ {| Slot._id := next_oid d; Slot.body := s |} ])%list;
     order := order d;
     next_oid := N.succ (next_oid d) |}.

(** The store after [seed]: the catalog goes into an empty product
    collection, then the slots into an empty slot collection. *)
Definition after_seed (d : Database) : Database :=
  let d1 := match product d with
            | [] => fold_left insert_product seed_products d
            | _ :: _ => d
            end in
  match slot d1 with
  | [] => fold_left insert_slot seed_slots d1
  | _ :: _ => d1
  end.

(** A small store written out: two products, one of them without a stored
    price, and two slots, the second with one place left. *)
Definition shop_db : Database :=
  {| product :=
       [ {| Product._id := 1%N;
            Product.body := seed_product "Bananas" 0.79 "each" 200 "Produce" "bananas.png" |};
         {| Product._id := 2%N;
            Product.body :=
              {| Product.name := Some "Mystery box"; Product.price := None;
                 Product.unit := Some "each"; Product.stock := Some 5;
                 Product.image := None; Product.category := None;
                 Product.in_stock := Some true |} |} ];
     slot :=
       [ {| Slot._id := 16%N; Slot.body := seed_slot "Today 10:00" 2 0 |};
         {| Slot._id := 17%N; Slot.body := seed_slot "Today 10:30" 3 2 |} ];
     order := [];
     next_oid := 32%N |}.

Definition shop_bananas_id : string := "000000000000000000000001".
Definition shop_mystery_id : string := "000000000000000000000002".
Definition shop_slot16_id : string := "000000000000000000000010".
Definition shop_slot17_id : string := "000000000000000000000011".

(** Closed goals about the example stores are settled by evaluation. *)
Ltac by_run := vm_compute; reflexivity.

Arguments round2 : simpl never.
Arguments float_of_int : simpl never.
Arguments ObjectId_of_str : simpl never.
Arguments ObjectId_str : simpl never.
Arguments slot_available : simpl never.

(** ** The monad *)

Lemma bind_inr {A B : Type} (c : M A) (k : A -> M B) (w w' : World) (b : B) :
  bind c k w = (inr b, w') ->
  exists a w1, c w = (inr a, w1) /\ k a w1 = (inr b, w').
Proof.
  unfold bind. destruct (c w) as [[e | a] w1]; intros H.
  - discriminate.
  - exists a, w1. split; [reflexivity | exact H].
Qed.

(** ** Integers that convert to a float *)

(** The number of binary digits of the mantissa does not grow under the
    right shifts of the rounding, and grows by at most one when the rounded
    mantissa is incremented; the exponent of the result stays far below the
    largest one. *)
Lemma digits2_pos_size (p : positive) : digits2_pos p = Pos.size p.
Proof. induction p; simpl; congruence. Qed.

Lemma digits2_pos_le (p : positive) (k : Z) :
  0 <= k -> Zpos p <= 2 ^ k -> Zpos (digits2_pos p) <= k + 1.
Proof.
  intros Hk H. rewrite digits2_pos_size.
  pose proof (Pos.size_le p) as Hs.
  assert (Hz : 2 ^ Zpos (Pos.size p) <= 2 * Zpos p).
  { rewrite <- Pos2Z.inj_pow. change (2 * Zpos p) with (Zpos p~0). apply Pos2Z.pos_le_pos. exact Hs. }
  assert (Hlt : 2 ^ Zpos (Pos.size p) <= 2 ^ (k + 1)).
  { replace (k + 1) with (Z.succ k) by lia. rewrite Z.pow_succ_r by exact Hk. lia. }
  apply Z.pow_le_mono_r_iff in Hlt; lia.
Qed.

Lemma digits2_pos_succ (p : positive) :
  Zpos (digits2_pos (Pos.succ p)) <= Zpos (digits2_pos p) + 1.
Proof. induction p; simpl; lia. Qed.

Lemma Zdigits2_nonneg (m : Z) : 0 <= Zdigits2 m.
Proof. destruct m; simpl; lia. Qed.

Lemma shr_1_digits (mrs : shr_record) :
  0 <= shr_m mrs ->
  0 <= shr_m (shr_1 mrs) /\ Zdigits2 (shr_m (shr_1 mrs)) <= Zdigits2 (shr_m mrs).
Proof.
  destruct mrs as [m r s]. simpl. intros Hm.
  destruct m as [| [p | p |] | p]; simpl; lia.
Qed.

Lemma iter_shr_1_digits (n : positive) :
  forall mrs, 0 <= shr_m mrs ->
    0 <= shr_m (iter_pos shr_1 n mrs) /\
    Zdigits2 (shr_m (iter_pos shr_1 n mrs)) <= Zdigits2 (shr_m mrs).
Proof.
  induction n as [n IH | n IH |]; intros mrs Hm; simpl.
  - destruct (shr_1_digits mrs Hm) as [H1 H2].
    destruct (IH _ H1) as [H3 H4]. destruct (IH _ H3) as [H5 H6]. lia.
  - destruct (IH _ Hm) as [H3 H4]. destruct (IH _ H3) as [H5 H6]. lia.
  - apply shr_1_digits. exact Hm.
Qed.

Lemma shr_fexp_digits (m e : Z) (l : location) (mrs' : shr_record) (e' : Z) :
  0 <= m ->
  shr_fexp prec emax m e l = (mrs', e') ->
  0 <= shr_m mrs' /\ Zdigits2 (shr_m mrs') <= Zdigits2 m /\
  (e' = e \/ e' = Z.max (Zdigits2 m + e - 53) (-1074)).
Proof.
  intros Hm. unfold shr_fexp, shr.
  assert (Hr : shr_m (shr_record_of_loc m l) = m) by (destruct l as [| []]; reflexivity).
  change (fexp prec emax (Zdigits2 m + e)) with (Z.max (Zdigits2 m + e - 53) (-1074)).
  destruct (Z.max (Zdigits2 m + e - 53) (-1074) - e) as [| n | n] eqn:En; intros H;
    inversion H; subst; clear H; rewrite ?Hr.
  - repeat split; [exact Hm | lia | left; reflexivity].
  - destruct (iter_shr_1_digits n (shr_record_of_loc m l)) as [H1 H2]; [rewrite Hr; exact Hm |].
    rewrite Hr in H2. repeat split; [exact H1 | exact H2 | right; lia].
  - repeat split; [exact Hm | lia | left; reflexivity].
Qed.

Lemma round_nearest_even_digits (m : Z) (l : location) :
  0 <= m ->
  0 <= round_nearest_even m l /\ Zdigits2 (round_nearest_even m l) <= Zdigits2 m + 1.
Proof.
  intros Hm.
  assert (H1 : 0 <= m + 1 /\ Zdigits2 (m + 1) <= Zdigits2 m + 1).
  { destruct m as [| p | p]; [simpl; lia | | lia].
    split; [lia |]. change (Zpos p + 1) with (Zpos (p + 1)). rewrite Pos.add_1_r.
    apply digits2_pos_succ. }
  unfold round_nearest_even. destruct l as [| []]; try destruct (Z.even m); lia.
Qed.

Lemma binary_round_aux_finite (sx : bool) (mx ex : Z) (lx : location) :
  0 <= mx -> Zdigits2 mx <= 100 -> ex <= 100 ->
  forall s, binary_round_aux prec emax sx mx ex lx <> S754_infinity s.
Proof.
  intros Hm Hd He s. unfold binary_round_aux.
  destruct (shr_fexp prec emax mx ex lx) as [mrs' e'] eqn:H1.
  apply shr_fexp_digits in H1; [| exact Hm]. destruct H1 as (Hm1 & Hd1 & He1).
  destruct (round_nearest_even_digits (shr_m mrs') (loc_of_shr_record mrs') Hm1) as [Hm2 Hd2].
  destruct (shr_fexp prec emax (round_nearest_even (shr_m mrs') (loc_of_shr_record mrs')) e' loc_Exact)
    as [mrs'' e''] eqn:H2.
  apply shr_fexp_digits in H2; [| exact Hm2]. destruct H2 as (Hm3 & Hd3 & He3).
  destruct (shr_m mrs''); try discriminate.
  destruct (Z.leb_spec e'' (emax - prec)) as [_ | Hgt]; [discriminate |].
  exfalso. change (emax - prec) with 971 in Hgt. lia.
Qed.

Lemma digits2_pos_iter_xO (d m : positive) :
  Zpos (digits2_pos (Pos.iter xO m d)) = Zpos (digits2_pos m) + Zpos d.
Proof.
  induction d as [| d IH] using Pos.peano_ind.
  - simpl. lia.
  - rewrite Pos.iter_succ. simpl. lia.
Qed.

Lemma binary_round_finite (sx : bool) (m : positive) :
  Zpos m <= 2 ^ 63 ->
  forall s, binary_round prec emax sx m 0 <> S754_infinity s.
Proof.
  intros H s. unfold binary_round, shl_align.
  pose proof (digits2_pos_le m 63 ltac:(lia) H) as Hd.
  change (fexp prec emax (Zpos (digits2_pos m) + 0))
    with (Z.max (Zpos (digits2_pos m) + 0 - 53) (-1074)).
  destruct (Z.max (Zpos (digits2_pos m) + 0 - 53) (-1074) - 0) as [| n | n] eqn:En.
  - apply binary_round_aux_finite; simpl; lia.
  - apply binary_round_aux_finite; simpl; lia.
  - apply binary_round_aux_finite; [lia | | lia].
    simpl. rewrite digits2_pos_iter_xO. lia.
Qed.

(** An integer of 8 bytes converts to a float: [float(n)] cannot raise. *)
Lemma float_of_int_int64 (z : Z) :
  int64 z = true -> exists q, float_of_int z = Some q.
Proof.
  unfold int64. rewrite andb_true_iff, Z.leb_le, Z.ltb_lt. intros [Hlo Hhi].
  unfold float_of_int.
  destruct (binary_normalize prec emax z 0 false) as [| s | | ] eqn:E;
    try (eexists; reflexivity).
  exfalso. destruct z as [| m | m]; simpl in E.
  - discriminate.
  - apply (binary_round_finite false m) in E; [exact E | lia].
  - apply (binary_round_finite true m) in E; [exact E | lia].
Qed.

(** ** The loop over the items *)

(** One turn of the loop, as a case analysis on what it looks up. *)
Lemma order_item_eq (d : Database) (item : OrderItem.t) (acc : float * list Order.item) :
  order_item item acc (Some d) =
  (match ObjectId_of_str (OrderItem.product_id item) with
   | None => inl (HTTPException 400 "Invalid ID format")
   | Some o =>
       match find_product_in_stock o (product d) with
       | None => inl (HTTPException 404 ("Product not found: " ++ OrderItem.product_id item))
       | Some prod =>
           match float_of_int (OrderItem.qty item) with
           | None => inl OverflowError
           | Some q =>
               match Product.price (Product.body prod) with
               | None => inl TypeError
               | Some x =>
                   inr ((fst acc + x * q)%float,
                        (snd acc ++ [ {| Order.product_id := OrderItem.product_id item;
                                         Order.name := Product.name (Product.body prod);
                                         Order.unit := Product.unit (Product.body prod);
                                         Order.price := x;
                                         Order.qty := OrderItem.qty item;
                                         Order.line_total := (x * q)%float |} ])%list)
               end
           end
       end
   end, Some d).
Proof.
  unfold order_item, bind, db_getitem, oid, float_mul_int, float_of_field, ret, raise.
  destruct (ObjectId_of_str (OrderItem.product_id item)) as [o |]; [| reflexivity].
  destruct (find_product_in_stock o (product d)) as [prod |]; [| reflexivity].
  destruct (float_of_int (OrderItem.qty item)) as [q |]; [| reflexivity].
  destruct (Product.price (Product.body prod)) as [x |]; reflexivity.
Qed.

(** The loop reads the store and never writes it. *)
Lemma order_item_world (item : OrderItem.t) (acc : float * list Order.item) (w : World) :
  world_of (order_item item acc w) = w.
Proof.
  destruct w as [d |].
  - rewrite order_item_eq. reflexivity.
  - reflexivity.
Qed.

Lemma order_items_world (items : list OrderItem.t) :
  forall (acc : float * list Order.item) (w : World),
    world_of (order_items items acc w) = w.
Proof.
  induction items as [| it rest IH]; intros acc w.
  - reflexivity.
  - simpl. unfold bind.
    pose proof (order_item_world it acc w) as Hw.
    destruct (order_item it acc w) as [[e | acc'] w1]; unfold world_of in *; simpl in Hw; subst w1.
    + reflexivity.
    + apply IH.
Qed.

(** What a loop that ran to its end has accumulated. *)
Lemma order_items_inr (d : Database) (items : list OrderItem.t) :
  forall (acc acc' : float * list Order.item) (w' : World),
    order_items items acc (Some d) = (inr acc', w') ->
    exists its,
      Forall2 (snapshot_of d) items its /\
      snd acc' = (snd acc ++ its)%list /\
      fst acc' = fold_left PrimFloat.add (map Order.line_total its) (fst acc).
Proof.
  induction items as [| it rest IH]; intros acc acc' w' H.
  - simpl in H. unfold ret in H. inversion H; subst.
    exists []. split; [constructor |]. split; [symmetry; apply app_nil_r | reflexivity].
  - simpl in H. apply bind_inr in H. destruct H as (acc1 & w1 & H1 & H2).
    pose proof (order_item_world it acc (Some d)) as Hw.
    rewrite H1 in Hw. unfold world_of in Hw. simpl in Hw. subst w1.
    rewrite order_item_eq in H1.
    destruct (ObjectId_of_str (OrderItem.product_id it)) as [o |] eqn:Eo; [| discriminate].
    destruct (find_product_in_stock o (product d)) as [prod |] eqn:Ep; [| discriminate].
    destruct (float_of_int (OrderItem.qty it)) as [q |] eqn:Eq; [| discriminate].
    destruct (Product.price (Product.body prod)) as [x |] eqn:Ex; [| discriminate].
    inversion H1; subst acc1; clear H1.
    apply IH in H2. destruct H2 as (its & HF & Hs & Ht). simpl in Hs, Ht.
    exists ({| Order.product_id := OrderItem.product_id it;
               Order.name := Product.name (Product.body prod);
               Order.unit := Product.unit (Product.body prod);
               Order.price := x;
               Order.qty := OrderItem.qty it;
               Order.line_total := (x * q)%float |} :: its).
    split; [| split].
    + constructor; [| exact HF].
      exists prod, q. simpl.
      split; [exists o; split; assumption |].
      split; [exact Ex |]. split; [exact Eq |].
      repeat split.
    + rewrite Hs. rewrite <- app_assoc. reflexivity.
    + exact Ht.
Qed.

(** The loop runs to its end when every item is priced. *)
Lemma order_items_priced (d : Database) (items : list OrderItem.t) :
  Forall (item_priced d) items ->
  forall acc : float * list Order.item,
    exists acc', order_items items acc (Some d) = (inr acc', Some d).
Proof.
  induction 1 as [| it rest Hit _ IH]; intros acc.
  - exists acc. reflexivity.
  - destruct Hit as (p & x & (o & Ho & Hp) & Hx & Hi).
    destruct (float_of_int_int64 _ Hi) as (q & Hq).
    simpl. unfold bind. rewrite order_item_eq, Ho, Hp, Hq, Hx.
    apply IH.
Qed.



(** ** [create_order], case by case *)

(** Once the slot is found with capacity left, the outcome is that of the
    loop and then of the insert; only a loop that ran to its end with a
    document the store takes is followed by the two writes. *)
Lemma create_order_eq (d : Database) (payload : CreateOrderRequest.t) (s : Slot.doc) :
  names_slot d payload s ->
  0 < slot_available s ->
  create_order payload (Some d) =
  match result_of (order_items (CreateOrderRequest.items payload) (0%float, []) (Some d)) with
  | inl e => (inl e, Some d)
  | inr acc =>
      if bson_encodable (order_doc_of payload acc)
      then (inr (created d acc), Some (after_order d s (order_doc_of payload acc)))
      else (inl OverflowError, Some d)
  end.
Proof.
  intros (o & Ho & Hs) Hav.
  unfold create_order, bind, db_getitem, oid. rewrite Ho. unfold ret at 1. rewrite Hs.
  destruct (Z.leb_spec (slot_available s) 0) as [Hle | _]; [lia |].
  pose proof (order_items_world (CreateOrderRequest.items payload) (0%float, []) (Some d)) as Hw.
  destruct (order_items (CreateOrderRequest.items payload) (0%float, []) (Some d))
    as [[e | acc] w1]; unfold world_of in Hw; simpl in Hw; subst w1; [reflexivity |].
  unfold result_of, create_document_order, bind, database_handle. cbn [fst].
  fold (order_doc_of payload acc).
  destruct (bson_encodable (order_doc_of payload acc)); reflexivity.
Qed.

(** Every call either raises and leaves the world as it was, or finds the
    slot with capacity left, runs the loop to its end, has the document
    taken by the store and makes the two writes. *)
Lemma create_order_cases (payload : CreateOrderRequest.t) (w : World) :
  (exists e, create_order payload w = (inl e, w)) \/
  (exists d s acc,
      w = Some d /\ names_slot d payload s /\ 0 < slot_available s /\
      order_items (CreateOrderRequest.items payload) (0%float, []) (Some d) = (inr acc, Some d) /\
      bson_encodable (order_doc_of payload acc) = true /\
      create_order payload w =
        (inr (created d acc), Some (after_order d s (order_doc_of payload acc)))).
Proof.
  destruct w as [d |]; [| left; eexists; reflexivity].
  destruct (ObjectId_of_str (CreateOrderRequest.slot_id payload)) as [o |] eqn:Ho.
  2:{ left. unfold create_order, bind, db_getitem, oid. rewrite Ho. eexists. reflexivity. }
  destruct (find_slot o (slot d)) as [s |] eqn:Hs.
  2:{ left. unfold create_order, bind, db_getitem, oid. rewrite Ho. unfold ret at 1.
      rewrite Hs. eexists. reflexivity. }
  destruct (Z.leb_spec (slot_available s) 0) as [Hle | Hlt].
  { left. unfold create_order, bind, db_getitem, oid. rewrite Ho. unfold ret at 1.
    rewrite Hs. apply Z.leb_le in Hle. rewrite Hle. eexists. reflexivity. }
  assert (Hn : names_slot d payload s) by (exists o; split; assumption).
  rewrite (create_order_eq d payload s Hn Hlt).
  pose proof (order_items_world (CreateOrderRequest.items payload) (0%float, []) (Some d)) as Hw.
  destruct (order_items (CreateOrderRequest.items payload) (0%float, []) (Some d))
    as [[e | acc] w1] eqn:Hloop; unfold world_of in Hw; simpl in Hw; subst w1.
  - left. exists e. reflexivity.
  - unfold result_of. cbn [fst].
    destruct (bson_encodable (order_doc_of payload acc)) eqn:Henc.
    + right. exists d, s, acc. repeat split; try assumption.
    + left. eexists. reflexivity.
Qed.

Lemma create_order_inr (payload : CreateOrderRequest.t) (w w' : World) (r : OrderCreated) :
  create_order payload w = (inr r, w') ->
  exists d s acc,
    w = Some d /\ names_slot d payload s /\ 0 < slot_available s /\
    order_items (CreateOrderRequest.items payload) (0%float, []) (Some d) = (inr acc, Some d) /\
    bson_encodable (order_doc_of payload acc) = true /\
    r = created d acc /\
    w' = Some (after_order d s (order_doc_of payload acc)).
Proof.
  intros H.
  destruct (create_order_cases payload w)
    as [(e & He) | (d & s & acc & Hw & Hn & Hav & Hl & Henc & Hc)].
  - rewrite He in H. discriminate.
  - rewrite Hc in H. inversion H; subst. exists d, s, acc. repeat split; assumption.
Qed.

(** The quantities of the snapshots are those of the request. *)
Lemma snapshots_storable (d : Database) (items : list OrderItem.t) (its : list Order.item) :
  Forall2 (snapshot_of d) items its ->
  (forallb (fun it => int64 (Order.qty it)) its = true <->
   Forall (fun item => int64 (OrderItem.qty item) = true) items).
Proof.
  induction 1 as [| item it items its Hs _ IH]; simpl.
  - split; [constructor | reflexivity].
  - destruct Hs as (p & q & _ & _ & _ & _ & Hq & _). rewrite Hq.
    rewrite andb_true_iff, IH. split.
    + intros [H1 H2]. constructor; assumption.
    + intros H. inversion H; subst. split; assumption.
Qed.

Lemma item_priced_storable (d : Database) (items : list OrderItem.t) :
  Forall (item_priced d) items ->
  Forall (fun item => int64 (OrderItem.qty item) = true) items.
Proof.
  intros H. apply Forall_impl with (2 := H).
  intros item (p & x & _ & _ & Hi). exact Hi.
Qed.

(** A request on a slot with capacity left whose items can all be ordered
    is accepted. *)
Lemma create_order_accepted (d : Database) (payload : CreateOrderRequest.t) (s : Slot.doc) :
  names_slot d payload s ->
  0 < slot_available s ->
  Forall (item_priced d) (CreateOrderRequest.items payload) ->
  exists acc,
    order_items (CreateOrderRequest.items payload) (0%float, []) (Some d)
    = (inr acc, Some d) /\
    create_order payload (Some d)
    = (inr (created d acc), Some (after_order d s (order_doc_of payload acc))).
Proof.
  intros Hn Hav Hp.
  destruct (order_items_priced d _ Hp (0%float, [])) as (acc & Hacc).
  exists acc. split; [exact Hacc |].
  rewrite (create_order_eq d payload s Hn Hav), Hacc. unfold result_of. cbn [fst].
  destruct (order_items_inr d _ _ _ _ Hacc) as (its & HF & Hs & _).
  simpl in Hs.
  assert (Henc : bson_encodable (order_doc_of payload acc) = true).
  { unfold bson_encodable. simpl. rewrite Hs.
    apply (snapshots_storable d _ its HF). apply (item_priced_storable d). exact Hp. }
  rewrite Henc. reflexivity.
Qed.

(** ** The slot collection under [update_one] *)

Lemma find_slot_split (o : ObjectId) (l : list Slot.doc) (s : Slot.doc) :
  find_slot o l = Some s ->
  exists before after,
    l = (before ++ s :: after)%list /\
    Slot._id s = o /\
    Forall (fun s' => Slot._id s' <> o) before /\
    update_one_inc_booked o l = (before ++ inc_booked s :: after)%list.
Proof.
  unfold find_slot. induction l as [| x rest IH]; simpl; intros H; [discriminate |].
  destruct (N.eqb_spec (Slot._id x) o) as [Heq | Hne].
  - inversion H; subst x. exists [], rest. repeat split; [exact Heq | constructor].
  - destruct (IH H) as (before & after & Hl & Hid & Hb & Hu).
    exists (x :: before), after. simpl. rewrite Hu, Hl at 1.
    repeat split; [exact Hid | constructor; assumption].
Qed.

Lemma Forall2_refl {A : Type} (R : A -> A -> Prop) :
  (forall x, R x x) -> forall l, Forall2 R l l.
Proof. intros H. induction l; constructor; auto. Qed.

(** [create_order] on a configured database, as one case analysis. *)
Lemma create_order_run (d : Database) (payload : CreateOrderRequest.t) :
  create_order payload (Some d) =
  match ObjectId_of_str (CreateOrderRequest.slot_id payload) with
  | None => (inl (HTTPException 400 "Invalid ID format"), Some d)
  | Some o =>
      match find_slot o (slot d) with
      | None => (inl (HTTPException 404 "Slot not found"), Some d)
      | Some s =>
          if slot_available s <=? 0
          then (inl (HTTPException 400 "Selected slot is full"), Some d)
          else
            match result_of (order_items (CreateOrderRequest.items payload)
                                         (0%float, []) (Some d)) with
            | inl e => (inl e, Some d)
            | inr acc =>
                if bson_encodable (order_doc_of payload acc)
                then (inr (created d acc),
                      Some (after_order d s (order_doc_of payload acc)))
                else (inl OverflowError, Some d)
            end
      end
  end.
Proof.
  destruct (ObjectId_of_str (CreateOrderRequest.slot_id payload)) as [o |] eqn:Ho.
  2:{ unfold create_order, bind, db_getitem, oid. rewrite Ho. reflexivity. }
  destruct (find_slot o (slot d)) as [s |] eqn:Hs.
  2:{ unfold create_order, bind, db_getitem, oid. rewrite Ho. unfold ret at 1.
      rewrite Hs. reflexivity. }
  destruct (Z.leb_spec (slot_available s) 0) as [Hle | Hlt].
  - unfold create_order, bind, db_getitem, oid. rewrite Ho. unfold ret at 1.
    rewrite Hs. apply Z.leb_le in Hle. rewrite Hle. reflexivity.
  - apply create_order_eq; [exists o; split; assumption | exact Hlt].
Qed.

(** ** Stock counts are not read *)

Lemma find_product_in_stock_restock (f : Product.doc -> option Z) (o : ObjectId)
      (l : list Product.doc) :
  find_product_in_stock o (map (set_stock f) l) =
  option_map (set_stock f) (find_product_in_stock o l).
Proof.
  unfold find_product_in_stock. induction l as [| p rest IH]; simpl; [reflexivity |].
  change (in_stock_true (set_stock f p)) with (in_stock_true p).
  destruct (N.eqb (Product._id p) o && in_stock_true p); [reflexivity | exact IH].
Qed.

Lemma order_items_restock (f : Product.doc -> option Z) (d : Database)
      (items : list OrderItem.t) :
  forall acc : float * list Order.item,
    result_of (order_items items acc (Some (restock f d))) =
    result_of (order_items items acc (Some d)).
Proof.
  induction items as [| it rest IH]; intros acc; [reflexivity |].
  simpl. unfold bind. rewrite !order_item_eq.
  destruct (ObjectId_of_str (OrderItem.product_id it)) as [o |]; [| reflexivity].
  simpl product. rewrite find_product_in_stock_restock.
  destruct (find_product_in_stock o (product d)) as [prod |]; simpl; [| reflexivity].
  destruct (float_of_int (OrderItem.qty it)) as [q |]; [| reflexivity].
  destruct (Product.price (Product.body prod)) as [x |]; [| reflexivity].
  apply IH.
Qed.

(** ** Order placement: the total *)





(** The example of the specification: 3 Bananas at 0.79 and 2 Milk at 2.49
    total 7.35. *)
Example create_order_bananas_milk :
  result_of (create_order (request slot4_id [item bananas_id 3; item milk_id 2])
                          demo_world)
  = inr {| order_id := "000000000000000000000009";
           resp_total := 7.35%float;
           resp_status := "confirmed" |}.
Proof. by_run. Qed.

(** ** Order placement: what a successful call writes *)



(** ** Order placement: a full slot *)

(** C3.  When the slot a request names has [booked] equal to [capacity],
    [create_order] raises the 400 error "Selected slot is full" and the store
    is left exactly as it was: no order document, no change to the slot. *)
Theorem create_order_slot_full (d : Database) (payload : CreateOrderRequest.t) (s : Slot.doc) :
  names_slot d payload s ->
  dict_get (Slot.booked (Slot.body s)) 0 = dict_get (Slot.capacity (Slot.body s)) 0 ->
  create_order payload (Some d)
  = (inl (HTTPException 400 "Selected slot is full"), Some d).
Proof.
  intros (o & Ho & Hs) Hfull.
  rewrite create_order_run, Ho, Hs.
  assert (Hle : (slot_available s <=? 0) = true).
  { apply Z.leb_le. unfold slot_available. rewrite Hfull. lia. }
  rewrite Hle. reflexivity.
Qed.

Lemma create_order_slot_full_witness :
  create_order (request slot4_id [item bananas_id 1]) (Some full_db)
  = (inl (HTTPException 400 "Selected slot is full"), Some full_db).
Proof.
  apply (create_order_slot_full full_db (request slot4_id [item bananas_id 1])
           {| Slot._id := 4%N; Slot.body := seed_slot "Today 10:00–10:30" 10 10 |}).
  - exists 4%N. split; by_run.
  - by_run.
Defined.

(** ** Order placement: an unavailable product *)






(** ** Order placement: atomicity on error *)

(** C5.  Whatever error [create_order] raises, the world after the call is
    the world before it: no order document is inserted and no slot counter
    is modified.  The four named failures are among them: a malformed
    identifier, a slot that is not found, a full slot, a product that is not
    found. *)
Theorem create_order_error_writes_nothing
        (payload : CreateOrderRequest.t) (w w' : World) (e : exn) :
  create_order payload w = (inl e, w') -> w' = w.
Proof.
  intros H.
  destruct (create_order_cases payload w)
    as [(e1 & He) | (d & s & acc & _ & _ & _ & _ & _ & Hc)].
  - rewrite He in H. inversion H. reflexivity.
  - rewrite Hc in H. discriminate.
Qed.

Lemma create_order_error_writes_nothing_witness :
  world_of (create_order (request "not-an-id" [item bananas_id 1]) demo_world) = demo_world.
Proof.
  apply (create_order_error_writes_nothing (request "not-an-id" [item bananas_id 1])
           demo_world _ (HTTPException 400 "Invalid ID format")).
  by_run.
Defined.

(** ** Order placement: the capacity invariant *)

Lemma inc_booked_within_capacity (s : Slot.doc) :
  0 < slot_available s -> slot_within_capacity (inc_booked s).
Proof.
  unfold slot_available, slot_within_capacity, inc_booked. simpl. lia.
Qed.

(** C6.  One call of [create_order] takes each slot that satisfies
    [booked <= capacity] to the same slot, which still satisfies it, whether
    the call succeeds or raises.  A call that raises leaves the slots as
    they were.  A call that succeeds checked [capacity - booked > 0] on the
    slot it names, and the slots after it are the slots before it with that
    one slot's [booked] higher by exactly 1 (its capacity and every other
    slot untouched). *)
Theorem create_order_keeps_capacity (d : Database) (payload : CreateOrderRequest.t) :
  exists d',
    world_of (create_order payload (Some d)) = Some d' /\
    Forall2 (fun s s' => Slot._id s' = Slot._id s /\
                         (slot_within_capacity s -> slot_within_capacity s'))
            (slot d) (slot d') /\
    (forall e, result_of (create_order payload (Some d)) = inl e -> slot d' = slot d) /\
    (forall r, result_of (create_order payload (Some d)) = inr r ->
               exists s before after,
                 names_slot d payload s /\
                 0 < dict_get (Slot.capacity (Slot.body s)) 0
                     - dict_get (Slot.booked (Slot.body s)) 0 /\
                 slot d' = update_one_inc_booked (Slot._id s) (slot d) /\
                 slot d = (before ++ s :: after)%list /\
                 slot d' = (before ++ inc_booked s :: after)%list /\
                 Slot.capacity (Slot.body (inc_booked s)) = Slot.capacity (Slot.body s) /\
                 dict_get (Slot.booked (Slot.body (inc_booked s))) 0
                 = dict_get (Slot.booked (Slot.body s)) 0 + 1).
Proof.
  destruct (create_order_cases payload (Some d))
    as [(e & He) | (d0 & s & acc & Hw & Hn & Hav & _ & _ & Hc)].
  - exists d. rewrite He. simpl. repeat split.
    + apply Forall2_refl. auto.
    + intros r Hr. discriminate.
  - inversion Hw; subst d0; clear Hw.
    exists (after_order d s (order_doc_of payload acc)). rewrite Hc. simpl.
    split; [reflexivity |]. split; [| split].
    + destruct Hn as (o & _ & Hs).
      destruct (find_slot_split o (slot d) s Hs) as (before & after & Hl & Hid & _ & Hu).
      rewrite Hid, Hu. rewrite Hl at 1.
      apply Forall2_app; [apply Forall2_refl; auto |].
      constructor; [| apply Forall2_refl; auto].
      split; [reflexivity |].
      intros _. apply inc_booked_within_capacity. exact Hav.
    + intros e He. discriminate.
    + intros r _.
      destruct Hn as (o & Ho & Hs).
      destruct (find_slot_split o (slot d) s Hs) as (before & after & Hl & Hid & _ & Hu).
      exists s, before, after.
      split; [exists o; split; assumption |].
      split; [unfold slot_available in Hav; lia |].
      split; [reflexivity |]. split; [exact Hl |].
      split; [rewrite Hid; exact Hu |]. split; reflexivity.
Qed.

(** ** Order placement: an empty list of items *)



(** ** Seeding *)

(** C8.  Seeding is idempotent: a second [seed] right after a first returns
    the same answer and leaves the store exactly as the first left it.
    Products are inserted only into an empty product collection and slots
    only into an empty slot collection (the fixed catalog and the fixed
    slots, in order); a collection that has documents is left as it is, and
    orders are never touched. *)
Theorem seed_idempotent (w : World) :
  seed (world_of (seed w)) = (result_of (seed w), world_of (seed w)) /\
  (forall d, w = Some d ->
     exists d',
       seed w = (inr "Seed complete", Some d') /\
       (product d <> [] -> product d' = product d) /\
       (slot d <> [] -> slot d' = slot d) /\
       (product d = [] -> map Product.body (product d') = seed_products) /\
       (slot d = [] -> map Slot.body (slot d') = seed_slots) /\
       order d' = order d).
Proof.
  destruct w as [[ps ss os n] |].
  - split.
    + destruct ps as [| p ps]; destruct ss as [| s ss]; by_run.
    + intros d Hd. inversion Hd; subst d; clear Hd.
      destruct ps as [| p ps]; destruct ss as [| s ss];
        eexists; (split; [by_run |]); cbn [product slot order];
        repeat split; intros H; try by_run; try discriminate H;
        exfalso; apply H; reflexivity.
  - split; [reflexivity | intros d Hd; discriminate Hd].
Qed.

(** ** Listings *)

(** C9.  The product listing returns exactly the products whose [in_stock]
    is true, in store order, each under [id = str(_id)]; no listed product
    has [in_stock] false or absent.  The slot listing returns every slot, in
    store order, with [available = max(capacity - booked, 0)].  Neither
    writes the store. *)
Theorem listings_exact (d : Database) :
  exists ps ss,
    list_products (Some d) = (inr ps, Some d) /\
    list_slots (Some d) = (inr ss, Some d) /\
    (forall x, In x ps <->
               exists p, In p (product d) /\
                         Product.in_stock (Product.body p) = Some true /\
                         x = {| Product.id := ObjectId_str (Product._id p);
                                Product.listed_body := Product.body p |}) /\
    Forall (fun x => Product.in_stock (Product.listed_body x) = Some true) ps /\
    map (fun x => (Slot.id x, Slot.listed_body x)) ss
    = map (fun s => (ObjectId_str (Slot._id s), Slot.body s)) (slot d) /\
    Forall (fun x => Slot.available x
                     = Z.max (dict_get (Slot.capacity (Slot.listed_body x)) 0
                              - dict_get (Slot.booked (Slot.listed_body x)) 0) 0) ss.
Proof.
  assert (Hst : forall p, in_stock_true p = true <->
                          Product.in_stock (Product.body p) = Some true).
  { intros p. unfold in_stock_true.
    destruct (Product.in_stock (Product.body p)) as [[|] |]; split; congruence. }
  eexists. eexists. split; [reflexivity |]. split; [reflexivity |].
  split; [| split; [| split]].
  - intros x. rewrite in_map_iff. split.
    + intros (p & Hx & Hin). apply filter_In in Hin. destruct Hin as [Hin Hs].
      exists p. split; [exact Hin |]. split; [apply Hst; exact Hs | symmetry; exact Hx].
    + intros (p & Hin & Hs & Hx). exists p. split; [symmetry; exact Hx |].
      apply filter_In. split; [exact Hin | apply Hst; exact Hs].
  - apply Forall_forall. intros x Hx. apply in_map_iff in Hx.
    destruct Hx as (p & Hx & Hin). apply filter_In in Hin. subst x. simpl.
    apply Hst. apply Hin.
  - rewrite map_map. simpl.
    induction (slot d) as [| s rest IH]; simpl; [reflexivity | rewrite IH; reflexivity].
  - apply Forall_forall. intros x Hx. apply in_map_iff in Hx.
    destruct Hx as (s & Hx & _). subst x. reflexivity.
Qed.

(** ** Stock counts *)

(** Over items whose products are all in stock with a stored price, the
    loop can only stop on a quantity that does not convert to a float. *)
Lemma order_items_stored_prices (d : Database) (items : list OrderItem.t) :
  Forall (fun it => exists p x, item_product d it p /\
                                Product.price (Product.body p) = Some x) items ->
  forall acc : float * list Order.item,
    (exists acc', order_items items acc (Some d) = (inr acc', Some d)) \/
    order_items items acc (Some d) = (inl OverflowError, Some d).
Proof.
  induction 1 as [| it rest Hit _ IH]; intros acc.
  - left. exists acc. reflexivity.
  - destruct Hit as (p & x & (o & Ho & Hp) & Hx).
    simpl. unfold bind. rewrite order_item_eq, Ho, Hp.
    destruct (float_of_int (OrderItem.qty it)) as [q |]; [| right; reflexivity].
    rewrite Hx. apply IH.
Qed.

(** C10, as the code has it.  [create_order] never writes the product
    collection, and its outcome does not depend on any stock count: with the
    stock of every product replaced by anything else it returns or raises
    the same, and leaves the same store up to the stock counts.  So an item
    is accepted whatever its quantity is against the stock, as soon as the
    slot exists with capacity left, the product is in stock with a stored
    price, and the quantity is an integer the store can hold (below
    [2 ^ 63]).  A request with a quantity the store cannot hold is refused
    and nothing is written; the error is [OverflowError] when the slot
    exists with capacity left and every product is in stock with a stored
    price. *)
Theorem create_order_ignores_stock (d : Database) (payload : CreateOrderRequest.t) :
  (exists d', world_of (create_order payload (Some d)) = Some d' /\
              product d' = product d) /\
  (forall f,
      result_of (create_order payload (Some (restock f d)))
      = result_of (create_order payload (Some d)) /\
      world_of (create_order payload (Some (restock f d)))
      = option_map (restock f) (world_of (create_order payload (Some d)))) /\
  (forall s,
      names_slot d payload s ->
      0 < slot_available s ->
      Forall (item_priced d) (CreateOrderRequest.items payload) ->
      exists r w', create_order payload (Some d) = (inr r, w')) /\
  (Exists (fun it => int64 (OrderItem.qty it) = false) (CreateOrderRequest.items payload) ->
   (exists e, create_order payload (Some d) = (inl e, Some d)) /\
   (forall s,
       names_slot d payload s ->
       0 < slot_available s ->
       Forall (fun it => exists p x, item_product d it p /\
                                     Product.price (Product.body p) = Some x)
              (CreateOrderRequest.items payload) ->
       create_order payload (Some d) = (inl OverflowError, Some d))).
Proof.
  assert (Hstore : forall acc,
             Exists (fun it => int64 (OrderItem.qty it) = false)
                    (CreateOrderRequest.items payload) ->
             order_items (CreateOrderRequest.items payload) (0%float, []) (Some d)
             = (inr acc, Some d) ->
             bson_encodable (order_doc_of payload acc) = false).
  { intros acc Hbig Hl.
    destruct (bson_encodable (order_doc_of payload acc)) eqn:Henc; [| reflexivity].
    exfalso.
    destruct (order_items_inr d _ _ _ _ Hl) as (its & HF & Hs & _).
    simpl in Hs. unfold bson_encodable in Henc. simpl in Henc. rewrite Hs in Henc.
    apply (snapshots_storable d _ its HF) in Henc.
    apply Exists_exists in Hbig. destruct Hbig as (it & Hin & Hit).
    rewrite Forall_forall in Henc. rewrite (Henc it Hin) in Hit. discriminate. }
  split; [| split; [| split]].
  - destruct (create_order_cases payload (Some d))
      as [(e & He) | (d0 & s & acc & Hw & _ & _ & _ & _ & Hc)].
    + exists d. rewrite He. split; reflexivity.
    + inversion Hw; subst d0. rewrite Hc. eexists. split; reflexivity.
  - intros f. rewrite !create_order_run. cbn [slot restock].
    rewrite order_items_restock.
    destruct (ObjectId_of_str (CreateOrderRequest.slot_id payload)) as [o |];
      [| split; reflexivity].
    destruct (find_slot o (slot d)) as [s |]; [| split; reflexivity].
    destruct (slot_available s <=? 0); [split; reflexivity |].
    destruct (result_of (order_items (CreateOrderRequest.items payload)
                                     (0%float, []) (Some d))) as [e | acc];
      [split; reflexivity |].
    destruct (bson_encodable (order_doc_of payload acc)); split; reflexivity.
  - intros s Hn Hav Hp.
    destruct (create_order_accepted d payload s Hn Hav Hp) as (acc & _ & Hc).
    rewrite Hc. eexists. eexists. reflexivity.
  - intros Hbig. split.
    + destruct (create_order_cases payload (Some d))
        as [He | (d0 & s & acc & Hw & _ & _ & Hl & Henc & _)]; [exact He |].
      exfalso. inversion Hw; subst d0; clear Hw.
      rewrite (Hstore acc Hbig Hl) in Henc. discriminate.
    + intros s Hn Hav Hp.
      rewrite (create_order_eq d payload s Hn Hav).
      destruct (order_items_stored_prices d _ Hp (0%float, [])) as [(acc & Hl) | Hl];
        rewrite Hl; unfold result_of; cbn [fst]; [| reflexivity].
      rewrite (Hstore acc Hbig Hl). reflexivity.
Qed.

Lemma create_order_ignores_stock_witness :
  (exists r w',
      create_order (request shop_slot16_id [item shop_bananas_id (2 ^ 63 - 1)]) (Some shop_db)
      = (inr r, w')) /\
  create_order (request shop_slot16_id [item shop_bananas_id (2 ^ 63)]) (Some shop_db)
  = (inl OverflowError, Some shop_db).
Proof.
  split.
  - apply (proj1 (proj2 (proj2 (create_order_ignores_stock shop_db
             (request shop_slot16_id [item shop_bananas_id (2 ^ 63 - 1)]))))
             {| Slot._id := 16%N; Slot.body := seed_slot "Today 10:00" 2 0 |}).
    + exists 16%N. split; by_run.
    + by_run.
    + constructor; [| constructor].
      eexists. exists 0.79%float. split; [exists 1%N; split; by_run |].
      split; by_run.
  - apply (proj2 (proj2 (proj2 (proj2 (create_order_ignores_stock shop_db
             (request shop_slot16_id [item shop_bananas_id (2 ^ 63)]))))
             (Exists_cons_hd _ (item shop_bananas_id (2 ^ 63)) [] eq_refl))
             {| Slot._id := 16%N; Slot.body := seed_slot "Today 10:00" 2 0 |}).
    + exists 16%N. split; by_run.
    + by_run.
    + constructor; [| constructor].
      eexists. exists 0.79%float. split; [exists 1%N; split; by_run | by_run].
Defined.

(** C10 as stated fails: Bananas are in stock with 200 in store and the slot
    has room, yet an order for [2 ^ 1024] of them is not accepted: the
    quantity does not convert to a float and the multiplication raises
    [OverflowError]. *)
Lemma create_order_ignores_stock_counterexample :
  CreateOrderRequest_valid (request slot4_id [item bananas_id (2 ^ 1024)]) = true /\
  (exists p, item_product demo_db (item bananas_id (2 ^ 1024)) p /\
             Product.stock (Product.body p) = Some 200) /\
  create_order (request slot4_id [item bananas_id (2 ^ 1024)]) (Some demo_db)
  = (inl OverflowError, Some demo_db).
Proof.
  split; [by_run |]. split; [| by_run].
  eexists. split; [exists 0%N; split; by_run | by_run].
Qed.

(** The largest quantity the store holds is accepted, whatever the stock
    is; with the next one the insert refuses the document and nothing is
    written. *)
Example create_order_largest_qty :
  result_of (create_order (request shop_slot16_id [item shop_bananas_id (2 ^ 63 - 1)])
                          (Some shop_db))
  = inr {| order_id := "000000000000000000000020";
           resp_total := 7286463909115273216%float;
           resp_status := "confirmed" |} /\
  create_order (request shop_slot16_id [item shop_bananas_id (2 ^ 63)]) (Some shop_db)
  = (inl OverflowError, Some shop_db).
Proof. split; by_run. Qed.

(** ** [seed], as a function on the store *)

Lemma for_each_create_document_product (l : list Product.fields) :
  forall d : Database,
    for_each l (fun p => create_document_product p ;;; ret tt) (Some d)
    = (inr tt, Some (fold_left insert_product l d)).
Proof.
  induction l as [| p rest IH]; intros d; [reflexivity |].
  cbn [for_each fold_left]. unfold bind at 1.
  change ((create_document_product p ;;; ret tt) (Some d))
    with (@inr exn unit tt, Some (insert_product d p)).
  apply IH.
Qed.

Lemma for_each_create_document_slot (l : list Slot.fields) :
  forall d : Database,
    for_each l (fun s => create_document_slot s ;;; ret tt) (Some d)
    = (inr tt, Some (fold_left insert_slot l d)).
Proof.
  induction l as [| s rest IH]; intros d; [reflexivity |].
  cbn [for_each fold_left]. unfold bind at 1.
  change ((create_document_slot s ;;; ret tt) (Some d))
    with (@inr exn unit tt, Some (insert_slot d s)).
  apply IH.
Qed.

Lemma seed_eq (d : Database) :
  seed (Some d) = (inr "Seed complete", Some (after_seed d)).
Proof.
  unfold seed, after_seed. unfold bind at 1. cbn [db_getitem].
  unfold bind at 1.
  destruct (product d) as [| p ps] eqn:Hp; cbn [List.length Nat.eqb].
  - rewrite for_each_create_document_product.
    unfold bind at 1. cbn [db_getitem]. unfold bind at 1.
    destruct (slot (fold_left insert_product seed_products d)) as [| s ss] eqn:Hs;
      cbn [List.length Nat.eqb].
    + rewrite for_each_create_document_slot. reflexivity.
    + reflexivity.
  - unfold ret at 1. unfold bind at 1. cbn [db_getitem]. unfold bind at 1.
    destruct (slot d) as [| s ss] eqn:Hs; cbn [List.length Nat.eqb].
    + rewrite for_each_create_document_slot. reflexivity.
    + reflexivity.
Qed.

Lemma fold_left_insert_product (l : list Product.fields) :
  forall d : Database,
    exists new,
      product (fold_left insert_product l d) = (product d ++ new)%list /\
      map Product.body new = l /\
      slot (fold_left insert_product l d) = slot d /\
      order (fold_left insert_product l d) = order d.
Proof.
  induction l as [| p rest IH]; intros d.
  - exists []. simpl. rewrite app_nil_r. repeat split.
  - destruct (IH (insert_product d p)) as (new & Hp & Hb & Hs & Ho).
    exists ({| Product._id := next_oid d; Product.body := p |} :: new).
    cbn [fold_left]. rewrite Hp, Hs, Ho. simpl. rewrite <- app_assoc, Hb.
    repeat split.
Qed.

Lemma fold_left_insert_slot (l : list Slot.fields) :
  forall d : Database,
    exists new,
      slot (fold_left insert_slot l d) = (slot d ++ new)%list /\
      map Slot.body new = l /\
      product (fold_left insert_slot l d) = product d /\
      order (fold_left insert_slot l d) = order d.
Proof.
  induction l as [| s rest IH]; intros d.
  - exists []. simpl. rewrite app_nil_r. repeat split.
  - destruct (IH (insert_slot d s)) as (new & Hs & Hb & Hp & Ho).
    exists ({| Slot._id := next_oid d; Slot.body := s |} :: new).
    cbn [fold_left]. rewrite Hs, Hp, Ho. simpl. rewrite <- app_assoc, Hb.
    repeat split.
Qed.

(** What [seed] does to each collection. *)
Lemma after_seed_shape (d : Database) :
  exists newp news,
    product (after_seed d) = (product d ++ newp)%list /\
    slot (after_seed d) = (slot d ++ news)%list /\
    order (after_seed d) = order d /\
    (newp = [] \/ product d = [] /\ map Product.body newp = seed_products) /\
    (news = [] \/ slot d = [] /\ map Slot.body news = seed_slots).
Proof.
  unfold after_seed.
  destruct (product d) as [| p ps] eqn:Hp.
  - destruct (fold_left_insert_product seed_products d) as (newp & H1 & H2 & H3 & H4).
    rewrite Hp in H1. rewrite H3.
    destruct (slot d) as [| s ss] eqn:Hs.
    + destruct (fold_left_insert_slot seed_slots (fold_left insert_product seed_products d))
        as (news & G1 & G2 & G3 & G4).
      rewrite H3 in G1. exists newp, news.
      repeat split; try congruence; right; split; congruence.
    + exists newp, []. rewrite app_nil_r.
      repeat split; try congruence; [right; split; congruence | left; reflexivity].
  - destruct (slot d) as [| s ss] eqn:Hs.
    + destruct (fold_left_insert_slot seed_slots d) as (news & G1 & G2 & G3 & G4).
      rewrite Hs in G1. exists [], news. rewrite app_nil_r.
      repeat split; try congruence; [left; reflexivity | right; split; congruence].
    + exists [], []. rewrite !app_nil_r.
      repeat split; try congruence; left; reflexivity.
Qed.

(** ** One request, and sequences of requests *)

(** A request leaves the store as it was, seeds it, or places one order. *)
Lemma serve_shape (c : call) (d : Database) :
  serve c (Some d) = Some d \/
  serve c (Some d) = Some (after_seed d) \/
  exists payload s acc,
    names_slot d payload s /\ 0 < slot_available s /\
    serve c (Some d) = Some (after_order d s (order_doc_of payload acc)).
Proof.
  destruct c as [| | | payload | getenv names |]; unfold serve.
  - right. left. rewrite seed_eq. reflexivity.
  - left. reflexivity.
  - left. reflexivity.
  - destruct (create_order_cases payload (Some d))
      as [(e & He) | (d0 & s & acc & Hw & Hn & Hav & _ & _ & Hc)].
    + left. rewrite He. reflexivity.
    + inversion Hw; subst d0. right. right. exists payload, s, acc.
      rewrite Hc. repeat split; assumption.
  - left. reflexivity.
  - left. reflexivity.
Qed.

(** A relation between stores that every request respects holds along every
    sequence of requests, when it is reflexive and transitive. *)
Lemma serve_all_rel (P : Database -> Database -> Prop) :
  (forall d, P d d) ->
  (forall d1 d2 d3, P d1 d2 -> P d2 d3 -> P d1 d3) ->
  (forall d, P d (after_seed d)) ->
  (forall d payload s acc,
      names_slot d payload s -> 0 < slot_available s ->
      P d (after_order d s (order_doc_of payload acc))) ->
  forall cs d, exists d', serve_all cs (Some d) = Some d' /\ P d d'.
Proof.
  intros Hrefl Htrans Hseed Horder.
  induction cs as [| c rest IH]; intros d.
  - exists d. split; [reflexivity | apply Hrefl].
  - assert (Hstep : exists d1, serve c (Some d) = Some d1 /\ P d d1).
    { destruct (serve_shape c d) as [H | [H | (payload & s & acc & Hn & Hav & H)]].
      - exists d. split; [exact H | apply Hrefl].
      - exists (after_seed d). split; [exact H | apply Hseed].
      - eexists. split; [exact H | apply Horder; assumption]. }
    destruct Hstep as (d1 & H1 & P1).
    destruct (IH d1) as (d' & H' & P').
    exists d'. split.
    + simpl. rewrite H1. exact H'.
    + apply (Htrans d d1 d'); assumption.
Qed.

(** ** Lookup after update *)

Lemma find_slot_update_same (o : ObjectId) (l : list Slot.doc) (s : Slot.doc) :
  find_slot o l = Some s ->
  find_slot o (update_one_inc_booked o l) = Some (inc_booked s).
Proof.
  unfold find_slot. induction l as [| x rest IH]; simpl; intros H; [discriminate |].
  destruct (N.eqb (Slot._id x) o) eqn:E.
  - inversion H; subst x. simpl. rewrite E. reflexivity.
  - simpl. rewrite E. apply IH. exact H.
Qed.

Lemma slot_available_inc_booked (s : Slot.doc) :
  0 < slot_available s ->
  slot_available (inc_booked s) = slot_available s - 1.
Proof. unfold slot_available, inc_booked. simpl. lia. Qed.

(** ** The sum of the counters *)

Lemma booked_total_app (l1 l2 : list Slot.doc) :
  booked_total (l1 ++ l2) = booked_total l1 + booked_total l2.
Proof.
  unfold booked_total. induction l1 as [| x rest IH]; simpl; [reflexivity |].
  rewrite IH. lia.
Qed.

Lemma booked_total_update (o : ObjectId) (l : list Slot.doc) (s : Slot.doc) :
  find_slot o l = Some s ->
  booked_total (update_one_inc_booked o l) = booked_total l + 1.
Proof.
  intros H. destruct (find_slot_split o l s H) as (before & after & Hl & _ & _ & Hu).
  rewrite Hu. rewrite Hl at 1. rewrite !booked_total_app.
  unfold booked_total. simpl. lia.
Qed.

Lemma Forall_of_bodies (Q : Slot.fields -> Prop) (news : list Slot.doc)
      (l : list Slot.fields) :
  map Slot.body news = l -> Forall Q l -> Forall (fun s => Q (Slot.body s)) news.
Proof.
  intros H HQ. subst l. induction news as [| x rest IH]; [constructor |].
  inversion HQ; subst. constructor; auto.
Qed.

Lemma seed_slots_unbooked :
  Forall (fun f => dict_get (Slot.booked f) 0 = 0 /\
                   dict_get (Slot.booked f) 0 <= dict_get (Slot.capacity f) 0 /\
                   Slot_valid f = true) seed_slots.
Proof. repeat constructor; simpl; lia. Qed.

Lemma serve_all_None (cs : list call) : serve_all cs None = None.
Proof. induction cs as [| c rest IH]; [reflexivity |]. destruct c; exact IH. Qed.

Lemma after_seed_nonempty (d : Database) :
  product (after_seed d) <> [] /\ slot (after_seed d) <> [].
Proof.
  unfold after_seed.
  set (d1 := match product d with
             | [] => fold_left insert_product seed_products d
             | _ :: _ => d
             end).
  assert (H1 : product d1 <> []).
  { unfold d1. destruct (product d) as [| p ps] eqn:E.
    - destruct (fold_left_insert_product seed_products d) as (np & P1 & P2 & _).
      rewrite P1, E. simpl. intros Hn. subst np. discriminate P2.
    - rewrite E. discriminate. }
  destruct (fold_left_insert_slot seed_slots d1) as (ns & S1 & S2 & S3 & _).
  destruct (slot d1) as [| x xs] eqn:E.
  - split; [rewrite S3; exact H1 |].
    rewrite S1. simpl. intros Hn. subst ns. discriminate S2.
  - split; [exact H1 | rewrite E; discriminate].
Qed.

Lemma after_seed_seeded (d : Database) :
  product d <> [] -> slot d <> [] -> after_seed d = d.
Proof.
  intros Hp Hs. unfold after_seed.
  destruct (product d) as [| p ps]; [exfalso; apply Hp; reflexivity |].
  destruct (slot d) as [| s ss]; [exfalso; apply Hs; reflexivity | reflexivity].
Qed.

(** ** Invariants along every sequence of requests *)

(** X1.  Orders are only ever appended: after any sequence of requests the
    order collection is the one before, unchanged and in the same order,
    followed by the orders placed since. *)
Theorem orders_append_only (cs : list call) (d : Database) :
  exists d' placed,
    serve_all cs (Some d) = Some d' /\
    order d' = (order d ++ placed)%list.
Proof.
  destruct (serve_all_rel
              (fun d d' => exists placed, order d' = (order d ++ placed)%list))
    with (cs := cs) (d := d) as (d' & H & (placed & Hp)).
  - intros d0. exists []. symmetry. apply app_nil_r.
  - intros d1 d2 d3 (p1 & H1) (p2 & H2). exists (p1 ++ p2)%list.
    rewrite H2, H1. symmetry. apply app_assoc.
  - intros d0. destruct (after_seed_shape d0) as (_ & _ & _ & _ & Ho & _).
    exists []. rewrite Ho. symmetry. apply app_nil_r.
  - intros d0 payload s acc _ _. eexists. reflexivity.
  - exists d', placed. split; assumption.
Qed.

(** X2.  The product collection is written only by seeding an empty one:
    after any sequence of requests the products are exactly the products
    before, or, when there were none, the seed catalog. *)
Theorem products_only_seeded (cs : list call) (d : Database) :
  exists d',
    serve_all cs (Some d) = Some d' /\
    (product d' = product d \/
     product d = [] /\ map Product.body (product d') = seed_products).
Proof.
  apply (serve_all_rel
           (fun d d' => product d' = product d \/
                        product d = [] /\ map Product.body (product d') = seed_products)).
  - intros d0. left. reflexivity.
  - intros d1 d2 d3 [H1 | [H1 M1]] [H2 | [H2 M2]].
    + left. congruence.
    + rewrite H1 in H2. right. split; assumption.
    + right. split; [exact H1 | congruence].
    + exfalso. rewrite H2 in M1. discriminate M1.
  - intros d0. destruct (after_seed_shape d0) as (newp & _ & Hp & _ & _ & Hn & _).
    destruct Hn as [Hnil | [Hd Hm]].
    + left. rewrite Hp, Hnil. apply app_nil_r.
    + right. split; [exact Hd |]. rewrite Hp, Hd. exact Hm.
  - intros d0 payload s acc _ _. left. reflexivity.
Qed.

(** X3.  Every order books exactly one place: along any sequence of requests
    the sum of the [booked] counters grows by exactly the number of orders
    that were added. *)
Theorem booked_total_counts_orders (cs : list call) (d : Database) :
  exists d',
    serve_all cs (Some d) = Some d' /\
    booked_total (slot d') - booked_total (slot d)
    = Z.of_nat (List.length (order d')) - Z.of_nat (List.length (order d)).
Proof.
  apply (serve_all_rel
           (fun d d' => booked_total (slot d') - booked_total (slot d)
                        = Z.of_nat (List.length (order d'))
                          - Z.of_nat (List.length (order d)))).
  - intros d0. lia.
  - intros d1 d2 d3 H1 H2. lia.
  - intros d0. destruct (after_seed_shape d0) as (_ & news & _ & Hs & Ho & _ & Hn).
    rewrite Hs, Ho, booked_total_app.
    assert (Hz : booked_total news = 0).
    { destruct Hn as [Hnil | [_ Hm]]; [subst news; reflexivity |].
      pose proof (Forall_of_bodies _ news seed_slots Hm seed_slots_unbooked) as HF.
      clear Hm Hs. unfold booked_total.
      induction HF as [| x rest [Hx _] _ IH]; simpl; [reflexivity | lia]. }
    lia.
  - intros d0 payload s acc (o & _ & Hs) _.
    destruct (find_slot_split o (slot d0) s Hs) as (_ & _ & _ & Hid & _ & _).
    simpl. rewrite Hid, (booked_total_update o (slot d0) s Hs).
    rewrite length_app. simpl. lia.
Qed.

(** X4.  A slot document is never removed or replaced, and only its counter
    moves, upwards: after any sequence of requests the slot collection
    starts with the slots that were there, each with the same identifier,
    label and capacity and a [booked] that is not smaller. *)
Theorem slots_only_book (cs : list call) (d : Database) :
  exists d' kept added,
    serve_all cs (Some d) = Some d' /\
    slot d' = (kept ++ added)%list /\
    Forall2 (fun s s' => Slot._id s' = Slot._id s /\
                         Slot.label (Slot.body s') = Slot.label (Slot.body s) /\
                         Slot.capacity (Slot.body s') = Slot.capacity (Slot.body s) /\
                         dict_get (Slot.booked (Slot.body s)) 0
                         <= dict_get (Slot.booked (Slot.body s')) 0)
            (slot d) kept.
Proof.
  set (R := fun s s' : Slot.doc =>
              Slot._id s' = Slot._id s /\
              Slot.label (Slot.body s') = Slot.label (Slot.body s) /\
              Slot.capacity (Slot.body s') = Slot.capacity (Slot.body s) /\
              dict_get (Slot.booked (Slot.body s)) 0
              <= dict_get (Slot.booked (Slot.body s')) 0).
  assert (Rrefl : forall s, R s s) by (intros s; unfold R; repeat split; lia).
  assert (Rtrans : forall l1 l2, Forall2 R l1 l2 ->
                   forall l3, Forall2 R l2 l3 -> Forall2 R l1 l3).
  { induction 1 as [| a b l1 l2 Hab _ IH]; intros l3 H3; inversion H3; subst.
    - constructor.
    - constructor; [| apply IH; assumption].
      unfold R in *. intuition congruence || lia. }
  destruct (serve_all_rel
              (fun d d' => exists kept added,
                   slot d' = (kept ++ added)%list /\ Forall2 R (slot d) kept))
    with (cs := cs) (d := d) as (d' & H & (kept & added & Hs & HF)).
  - intros d0. exists (slot d0), []. split; [symmetry; apply app_nil_r |].
    apply Forall2_refl. exact Rrefl.
  - intros d1 d2 d3 (k1 & a1 & S1 & F1) (k2 & a2 & S2 & F2).
    rewrite S1 in F2. apply Forall2_app_inv_l in F2.
    destruct F2 as (k2a & k2b & Fa & Fb & Hk). subst k2.
    exists k2a, (k2b ++ a2)%list. split; [rewrite S2; symmetry; apply app_assoc |].
    apply (Rtrans _ _ F1 _ Fa).
  - intros d0. destruct (after_seed_shape d0) as (_ & news & _ & Hs & _).
    exists (slot d0), news. split; [exact Hs | apply Forall2_refl; exact Rrefl].
  - intros d0 payload s acc (o & _ & Hs) _.
    destruct (find_slot_split o (slot d0) s Hs) as (before & after & Hl & Hid & _ & Hu).
    exists (update_one_inc_booked (Slot._id s) (slot d0)), []. simpl.
    split; [symmetry; apply app_nil_r |].
    rewrite Hid, Hu. rewrite Hl at 1.
    apply Forall2_app; [apply Forall2_refl; exact Rrefl |].
    constructor; [| apply Forall2_refl; exact Rrefl].
    unfold R, inc_booked. simpl. repeat split. lia.
  - exists d', kept, added. repeat split; assumption.
Qed.

(** The slots of a store after an order, when those before satisfy a
    property that [inc_booked] keeps on a slot with capacity left. *)
Lemma after_order_slots (Q : Slot.doc -> Prop) (d : Database)
      (payload : CreateOrderRequest.t) (s : Slot.doc) (doc : Order.fields) :
  (Q s -> Q (inc_booked s)) ->
  names_slot d payload s ->
  Forall Q (slot d) -> Forall Q (slot (after_order d s doc)).
Proof.
  intros Hinc (o & _ & Hs) HF.
  destruct (find_slot_split o (slot d) s Hs) as (before & after & Hl & Hid & _ & Hu).
  simpl. rewrite Hid, Hu. rewrite Hl in HF.
  apply Forall_app in HF. destruct HF as [Hb Ha]. inversion Ha; subst.
  apply Forall_app. split; [exact Hb |]. constructor; auto.
Qed.

(** X5.  [booked <= capacity] is an invariant of the service, sequentially:
    when every slot satisfies it, every slot satisfies it after any sequence
    of requests, seeding included. *)
Theorem capacity_invariant (cs : list call) (d : Database) :
  Forall slot_within_capacity (slot d) ->
  exists d',
    serve_all cs (Some d) = Some d' /\
    Forall slot_within_capacity (slot d').
Proof.
  intros H0.
  destruct (serve_all_rel
              (fun d d' => Forall slot_within_capacity (slot d) ->
                           Forall slot_within_capacity (slot d')))
    with (cs := cs) (d := d) as (d' & H & HP).
  - auto.
  - auto.
  - intros d0 HF. destruct (after_seed_shape d0) as (_ & news & _ & Hs & _ & _ & Hn).
    rewrite Hs. apply Forall_app. split; [exact HF |].
    destruct Hn as [Hnil | [_ Hm]]; [subst news; constructor |].
    pose proof (Forall_of_bodies _ news seed_slots Hm seed_slots_unbooked) as HB.
    apply Forall_impl with (2 := HB). intros x (_ & Hx & _). exact Hx.
  - intros d0 payload s acc Hn Hav HF.
    apply (after_order_slots slot_within_capacity d0 payload s _); [| exact Hn | exact HF].
    intros _. apply inc_booked_within_capacity. exact Hav.
  - exists d'. split; [exact H | apply HP; exact H0].
Qed.

Lemma capacity_invariant_witness :
  exists d',
    serve_all [POST_orders (request slot4_id [item bananas_id 3]); POST_seed; GET_slots]
              (Some demo_db) = Some d' /\
    Forall slot_within_capacity (slot d').
Proof.
  apply (capacity_invariant
           [POST_orders (request slot4_id [item bananas_id 3]); POST_seed; GET_slots]
           demo_db).
  let l := eval vm_compute in (slot demo_db) in change (slot demo_db) with l.
  repeat constructor; unfold slot_within_capacity; simpl; lia.
Defined.

(** X6.  The constraints of [class Slot] ([label] present, [capacity >= 1],
    [booked >= 0]) are kept by the service: when every stored slot satisfies
    them, every stored slot satisfies them after any sequence of requests. *)
Theorem slot_schema_invariant (cs : list call) (d : Database) :
  Forall (fun s => Slot_valid (Slot.body s) = true) (slot d) ->
  exists d',
    serve_all cs (Some d) = Some d' /\
    Forall (fun s => Slot_valid (Slot.body s) = true) (slot d').
Proof.
  intros H0.
  destruct (serve_all_rel
              (fun d d' => Forall (fun s => Slot_valid (Slot.body s) = true) (slot d) ->
                           Forall (fun s => Slot_valid (Slot.body s) = true) (slot d')))
    with (cs := cs) (d := d) as (d' & H & HP).
  - auto.
  - auto.
  - intros d0 HF. destruct (after_seed_shape d0) as (_ & news & _ & Hs & _ & _ & Hn).
    rewrite Hs. apply Forall_app. split; [exact HF |].
    destruct Hn as [Hnil | [_ Hm]]; [subst news; constructor |].
    pose proof (Forall_of_bodies _ news seed_slots Hm seed_slots_unbooked) as HB.
    apply Forall_impl with (2 := HB). intros x (_ & _ & Hx). exact Hx.
  - intros d0 payload s acc Hn _ HF.
    apply (after_order_slots (fun s => Slot_valid (Slot.body s) = true) d0 payload s _);
      [| exact Hn | exact HF].
    unfold Slot_valid, inc_booked. simpl.
    destruct (Slot.label (Slot.body s)); [| discriminate].
    destruct (Slot.capacity (Slot.body s)) as [c |]; [| discriminate].
    intros Hv. apply andb_true_iff in Hv. destruct Hv as [Hc Hb].
    apply andb_true_iff. split; [exact Hc |].
    apply Z.leb_le in Hb. apply Z.leb_le. lia.
  - exists d'. split; [exact H | apply HP; exact H0].
Qed.

Lemma slot_schema_invariant_witness :
  exists d',
    serve_all [POST_orders (request slot4_id []); GET_products; POST_seed]
              (Some demo_db) = Some d' /\
    Forall (fun s => Slot_valid (Slot.body s) = true) (slot d').
Proof.
  apply (slot_schema_invariant
           [POST_orders (request slot4_id []); GET_products; POST_seed] demo_db).
  let l := eval vm_compute in (slot demo_db) in change (slot demo_db) with l.
  repeat constructor.
Defined.

(** X7.  Once seeded, always seeded: after a first [seed], whatever requests
    follow, a further [seed] returns without changing anything. *)
Theorem seed_once (cs : list call) (w : World) :
  world_of (seed (serve_all cs (serve POST_seed w)))
  = serve_all cs (serve POST_seed w).
Proof.
  destruct w as [d |].
  - unfold serve at 2. unfold serve at 1. rewrite seed_eq. unfold world_of at 2 3. simpl snd.
    destruct (serve_all_rel
                (fun d d' => (product d <> [] -> product d' <> []) /\
                             (slot d <> [] -> slot d' <> [])))
      with (cs := cs) (d := after_seed d) as (d' & H & (Hp & Hs)).
    + intros d0. split; auto.
    + intros d1 d2 d3 [P1 S1] [P2 S2]. split; auto.
    + intros d0. split; intros _; apply after_seed_nonempty.
    + intros d0 payload s acc (o & _ & Hf) _. split; [auto |].
      intros _. destruct (find_slot_split o (slot d0) s Hf) as (b & a & _ & Hid & _ & Hu).
      simpl. rewrite Hid, Hu. destruct b; discriminate.
    + rewrite H, seed_eq. unfold world_of. simpl.
      destruct (after_seed_nonempty d) as [Np Ns].
      rewrite (after_seed_seeded d' (Hp Np) (Hs Ns)). reflexivity.
  - simpl. rewrite serve_all_None. reflexivity.
Qed.

(** ** Identifiers: [str] and back *)

Lemma hex_digit_hex_char (d : N) : (d < 16)%N -> hex_digit (hex_char d) = Some d.
Proof.
  intros H. rewrite <- (N2Nat.id d).
  assert (Hn : (N.to_nat d < 16)%nat) by lia.
  revert Hn. generalize (N.to_nat d). intros n Hn.
  do 16 (destruct n as [| n]; [reflexivity |]).
  lia.
Qed.

Lemma string_app_assoc (a b c : string) : ((a ++ b) ++ c = a ++ (b ++ c))%string.
Proof. induction a as [| x rest IH]; simpl; [reflexivity | rewrite IH; reflexivity]. Qed.

Lemma hex_digits_app (n : nat) :
  forall (v : N) (acc : string),
    hex_digits n v acc = (hex_digits n v "" ++ acc)%string.
Proof.
  induction n as [| k IH]; intros v acc; [reflexivity |].
  simpl. rewrite (IH _ (String _ acc)), (IH _ (String _ "")).
  rewrite string_app_assoc. reflexivity.
Qed.

Lemma hex_digits_length (n : nat) :
  forall (v : N) (acc : string),
    String.length (hex_digits n v acc) = (n + String.length acc)%nat.
Proof.
  induction n as [| k IH]; intros v acc; [reflexivity |].
  simpl. rewrite IH. simpl. lia.
Qed.

Lemma hex_value_app (s1 s2 : string) :
  forall acc : N,
    hex_value (s1 ++ s2)%string acc
    = match hex_value s1 acc with
      | Some b => hex_value s2 b
      | None => None
      end.
Proof.
  induction s1 as [| c rest IH]; intros acc; [reflexivity |].
  simpl. destruct (hex_digit c); [apply IH | reflexivity].
Qed.

Lemma hex_value_hex_digits (n : nat) :
  forall v acc : N,
    hex_value (hex_digits n v "") acc
    = Some (acc * 16 ^ N.of_nat n + v mod 16 ^ N.of_nat n)%N.
Proof.
  induction n as [| k IH]; intros v acc.
  - simpl. rewrite N.mod_1_r. f_equal. lia.
  - cbn [hex_digits]. rewrite hex_digits_app, hex_value_app, IH. cbn [hex_value].
    rewrite hex_digit_hex_char by (apply N.mod_upper_bound; discriminate).
    f_equal. rewrite Nat2N.inj_succ, N.pow_succ_r'.
    rewrite (N.Div0.mod_mul_r v 16 (16 ^ N.of_nat k)). lia.
Qed.

Lemma hex_digit_not_space (c : ascii) :
  hex_digit c <> None -> is_space c = false.
Proof.
  destruct c as [[] [] [] [] [] [] [] []]; vm_compute; intros H;
    try reflexivity; exfalso; apply H; reflexivity.
Qed.

(** On an even number of hexadecimal digits and nothing else,
    [bytes.fromhex] yields one byte per pair, and the bytes denote the same
    number as the digits. *)
Lemma fromhex_hex_value (n : nat) :
  forall (s : string) (a r : N),
    String.length s = (2 * n)%nat ->
    hex_value s a = Some r ->
    exists bs, fromhex s = Some bs /\ List.length bs = n /\
               fold_left (fun acc b => (256 * acc + b)%N) bs a = r.
Proof.
  induction n as [| k IH]; intros s a r Hlen Hv.
  - destruct s; [| discriminate]. simpl in Hv. inversion Hv; subst.
    exists []. repeat split.
  - destruct s as [| c [| c' rest]]; simpl in Hlen; try lia.
    cbn [hex_value] in Hv.
    destruct (hex_digit c) as [hi |] eqn:Hc; [| discriminate].
    destruct (hex_digit c') as [lo |] eqn:Hc'; [| discriminate].
    destruct (IH rest (16 * (16 * a + hi) + lo)%N r) as (bs & Hbs & Hl & Hf);
      [lia | exact Hv |].
    exists ((16 * hi + lo)%N :: bs).
    cbn [fromhex]. rewrite hex_digit_not_space by congruence.
    rewrite Hc, Hc', Hbs. repeat split.
    + simpl. rewrite Hl. reflexivity.
    + cbn [fold_left]. rewrite <- Hf. f_equal. lia.
Qed.

Lemma ObjectId_round_trip (o : ObjectId) :
  ObjectId_ok o -> ObjectId_of_str (ObjectId_str o) = Some o.
Proof.
  intros Hok. unfold ObjectId_of_str, ObjectId_str.
  rewrite hex_digits_length. simpl Nat.eqb. cbv iota.
  destruct (fromhex_hex_value 12 (hex_digits 24 o "") 0 _ (hex_digits_length 24 o "")
              (hex_value_hex_digits 24 o 0)) as (bs & Hbs & Hl & Hf).
  rewrite Hbs. cbn [option_map]. f_equal.
  unfold ObjectId_of_bytes. rewrite Hl, Hf. simpl Nat.eqb. cbv iota.
  simpl N.mul. apply N.mod_small. exact Hok.
Qed.

(** X8.  An identifier printed by [str] is read back by [oid]: for every
    12-byte ObjectId [o], [oid(str(o))] returns [o] and touches nothing. *)
Theorem oid_round_trip (o : ObjectId) (w : World) :
  ObjectId_ok o -> oid (ObjectId_str o) w = (inr o, w).
Proof.
  intros Hok. unfold oid. rewrite (ObjectId_round_trip o Hok). reflexivity.
Qed.

Lemma oid_round_trip_witness :
  oid "00000000000000000000beef" demo_world = (inr 48879%N, demo_world).
Proof.
  apply (oid_round_trip 48879%N demo_world).
  unfold ObjectId_ok. by_run.
Defined.

(** ** Listings and order placement together *)

Lemma find_slot_unique (l : list Slot.doc) (s : Slot.doc) :
  NoDup (map Slot._id l) -> In s l -> find_slot (Slot._id s) l = Some s.
Proof.
  unfold find_slot. induction l as [| x rest IH]; simpl; intros Hnd Hin; [contradiction |].
  inversion Hnd as [| i ids Hni Hrest]; subst.
  destruct Hin as [-> | Hin].
  - rewrite N.eqb_refl. reflexivity.
  - destruct (N.eqb_spec (Slot._id x) (Slot._id s)) as [Heq | _].
    + exfalso. apply Hni. rewrite Heq. apply in_map. exact Hin.
    + apply IH; assumption.
Qed.

Lemma list_slots_eq (d : Database) :
  list_slots (Some d)
  = (inr (map (fun s => {| Slot.id := ObjectId_str (Slot._id s);
                           Slot.listed_body := Slot.body s;
                           Slot.available := slot_available s |}) (slot d)), Some d).
Proof.
  unfold list_slots, get_documents_slot, bind, database_handle, ret.
  f_equal. f_equal. f_equal.
  induction (slot d) as [| x rest IH]; simpl; [reflexivity | rewrite IH; reflexivity].
Qed.

(** X9.  What the slot listing shows is what order placement does, when
    slot identifiers are distinct 12-byte ObjectIds: an order on a listed
    slot whose [available] is 0 is refused with "Selected slot is full", and
    an order on a listed slot whose [available] is positive is accepted
    when every item can be ordered (its product is in stock with a stored
    price and its quantity is an integer the store can hold). *)
Theorem listed_availability_decides
        (d : Database) (payload : CreateOrderRequest.t)
        (ss : list Slot.listed) (x : Slot.listed) :
  NoDup (map Slot._id (slot d)) ->
  Forall (fun s => ObjectId_ok (Slot._id s)) (slot d) ->
  list_slots (Some d) = (inr ss, Some d) ->
  In x ss ->
  CreateOrderRequest.slot_id payload = Slot.id x ->
  0 <= Slot.available x /\
  (Slot.available x = 0 ->
   create_order payload (Some d)
   = (inl (HTTPException 400 "Selected slot is full"), Some d)) /\
  (0 < Slot.available x ->
   Forall (item_priced d) (CreateOrderRequest.items payload) ->
   exists r d', create_order payload (Some d) = (inr r, Some d')).
Proof.
  intros Hnd Hok Hlist Hin Hid.
  rewrite list_slots_eq in Hlist. inversion Hlist; subst ss; clear Hlist.
  apply in_map_iff in Hin. destruct Hin as (s & Hx & Hin). subst x. simpl in *.
  assert (Hn : names_slot d payload s).
  { exists (Slot._id s). split.
    - rewrite Hid. apply ObjectId_round_trip.
      rewrite Forall_forall in Hok. apply Hok. exact Hin.
    - apply find_slot_unique; assumption. }
  split; [unfold slot_available; lia |]. split.
  - intros Hz. destruct Hn as (o & Ho & Hs).
    rewrite create_order_run, Ho, Hs, Hz. reflexivity.
  - intros Hpos Hp.
    destruct (create_order_accepted d payload s Hn Hpos Hp) as (acc & _ & Hc).
    rewrite Hc. eexists. eexists. reflexivity.
Qed.

Lemma shop_slots_distinct : NoDup (map Slot._id (slot shop_db)).
Proof. repeat constructor; simpl; intuition discriminate. Qed.

Lemma shop_slots_ok : Forall (fun s => ObjectId_ok (Slot._id s)) (slot shop_db).
Proof. repeat constructor; unfold ObjectId_ok; by_run. Qed.

Lemma shop_bananas_priced (qty : Z) :
  int64 qty = true -> item_priced shop_db (item shop_bananas_id qty).
Proof.
  intros Hi. eexists. exists 0.79%float.
  split; [exists 1%N; split; by_run |].
  split; [reflexivity | exact Hi].
Qed.

Lemma listed_availability_decides_witness :
  create_order (request slot4_id [item bananas_id 1]) (Some full_db)
  = (inl (HTTPException 400 "Selected slot is full"), Some full_db) /\
  exists r d',
    create_order (request shop_slot17_id [item shop_bananas_id 1]) (Some shop_db)
    = (inr r, Some d').
Proof.
  split.
  - apply (proj1 (proj2 (listed_availability_decides full_db
             (request slot4_id [item bananas_id 1])
             [ {| Slot.id := slot4_id;
                  Slot.listed_body := seed_slot "Today 10:00–10:30" 10 10;
                  Slot.available := 0 |} ]
             {| Slot.id := slot4_id;
                Slot.listed_body := seed_slot "Today 10:00–10:30" 10 10;
                Slot.available := 0 |}
             ltac:(repeat constructor; simpl; intuition discriminate)
             ltac:(repeat constructor; unfold ObjectId_ok; by_run)
             ltac:(by_run)
             ltac:(left; reflexivity)
             ltac:(reflexivity)))).
    reflexivity.
  - apply (proj2 (proj2 (listed_availability_decides shop_db
             (request shop_slot17_id [item shop_bananas_id 1])
             [ {| Slot.id := shop_slot16_id;
                  Slot.listed_body := seed_slot "Today 10:00" 2 0;
                  Slot.available := 2 |};
               {| Slot.id := shop_slot17_id;
                  Slot.listed_body := seed_slot "Today 10:30" 3 2;
                  Slot.available := 1 |} ]
             {| Slot.id := shop_slot17_id;
                Slot.listed_body := seed_slot "Today 10:30" 3 2;
                Slot.available := 1 |}
             shop_slots_distinct
             shop_slots_ok
             ltac:(by_run)
             ltac:(right; left; reflexivity)
             ltac:(reflexivity)))).
    + reflexivity.
    + constructor; [| constructor]. apply shop_bananas_priced. by_run.
Defined.

(** X10.  A placed order takes one place off the listing: the slot listing
    after a successful [create_order] is the listing before it, except that
    the entry of the slot the request names has [available] lower by exactly
    one (and not below zero). *)
Theorem order_lowers_listed_availability
        (payload : CreateOrderRequest.t) (d d' : Database) (r : OrderCreated) :
  create_order payload (Some d) = (inr r, Some d') ->
  exists o before x x' after,
    ObjectId_of_str (CreateOrderRequest.slot_id payload) = Some o /\
    list_slots (Some d) = (inr (before ++ x :: after)%list, Some d) /\
    list_slots (Some d') = (inr (before ++ x' :: after)%list, Some d') /\
    Slot.id x = ObjectId_str o /\
    Slot.id x' = Slot.id x /\
    Slot.available x' = Slot.available x - 1 /\
    0 <= Slot.available x'.
Proof.
  intros H. apply create_order_inr in H.
  destruct H as (d0 & s & acc & Hw & (o & Ho & Hs) & Hav & _ & _ & _ & Hw').
  inversion Hw; subst d0; clear Hw. inversion Hw'; subst d'; clear Hw'.
  destruct (find_slot_split o (slot d) s Hs) as (before & after & Hl & Hid & _ & Hu).
  set (view := fun s : Slot.doc =>
                 {| Slot.id := ObjectId_str (Slot._id s);
                    Slot.listed_body := Slot.body s;
                    Slot.available := slot_available s |}).
  exists o, (map view before), (view s), (view (inc_booked s)), (map view after).
  rewrite !list_slots_eq. fold view. simpl slot. rewrite Hid, Hu. rewrite Hl at 1.
  rewrite !map_app. simpl map.
  repeat split; try assumption.
  - simpl. rewrite Hid. reflexivity.
  - simpl. apply slot_available_inc_booked. exact Hav.
  - simpl. rewrite slot_available_inc_booked by exact Hav. lia.
Qed.

Lemma order_lowers_listed_availability_witness :
  exists o before x x' after,
    ObjectId_of_str (CreateOrderRequest.slot_id (request shop_slot17_id [])) = Some o /\
    list_slots (Some shop_db) = (inr (before ++ x :: after)%list, Some shop_db) /\
    list_slots (Some (after_order shop_db
                        {| Slot._id := 17%N; Slot.body := seed_slot "Today 10:30" 3 2 |}
                        (order_doc_of (request shop_slot17_id []) (0%float, []))))
    = (inr (before ++ x' :: after)%list,
       Some (after_order shop_db
               {| Slot._id := 17%N; Slot.body := seed_slot "Today 10:30" 3 2 |}
               (order_doc_of (request shop_slot17_id []) (0%float, [])))) /\
    Slot.id x = ObjectId_str o /\
    Slot.id x' = Slot.id x /\
    Slot.available x' = Slot.available x - 1 /\
    0 <= Slot.available x'.
Proof.
  apply (order_lowers_listed_availability (request shop_slot17_id []) shop_db
           (after_order shop_db
              {| Slot._id := 17%N; Slot.body := seed_slot "Today 10:30" 3 2 |}
              (order_doc_of (request shop_slot17_id []) (0%float, [])))
           {| order_id := "000000000000000000000020";
              resp_total := 0%float;
              resp_status := "confirmed" |}).
  by_run.
Defined.

Lemma list_products_eq (d : Database) :
  list_products (Some d)
  = (inr (map (fun p => {| Product.id := ObjectId_str (Product._id p);
                           Product.listed_body := Product.body p |})
              (filter in_stock_true (product d))), Some d).
Proof. reflexivity. Qed.

Lemma find_product_in_stock_Some (o : ObjectId) (l : list Product.doc) (p : Product.doc) :
  find_product_in_stock o l = Some p ->
  In p l /\ Product._id p = o /\ in_stock_true p = true.
Proof.
  unfold find_product_in_stock. intros H. apply find_some in H.
  destruct H as [Hin Hb]. apply andb_true_iff in Hb. destruct Hb as [Hid Hs].
  apply N.eqb_eq in Hid. repeat split; assumption.
Qed.

(** X11.  Listed means orderable, and only listed: when product identifiers
    are 12-byte ObjectIds, the [id] of every listed product is accepted by
    the product lookup of [create_order], and every product identifier that
    the lookup accepts is the [id] of a listed product (up to the case of
    its hexadecimal digits). *)
Theorem listed_products_orderable (d : Database) (ps : list Product.listed) :
  Forall (fun p => ObjectId_ok (Product._id p)) (product d) ->
  list_products (Some d) = (inr ps, Some d) ->
  (forall x qty, In x ps -> exists p, item_product d (item (Product.id x) qty) p) /\
  (forall it p, item_product d it p ->
                exists x, In x ps /\
                          ObjectId_of_str (Product.id x)
                          = ObjectId_of_str (OrderItem.product_id it)).
Proof.
  intros Hok Hlist. rewrite list_products_eq in Hlist.
  inversion Hlist; subst ps; clear Hlist.
  rewrite Forall_forall in Hok. split.
  - intros x qty Hin. apply in_map_iff in Hin. destruct Hin as (p & Hx & Hin).
    apply filter_In in Hin. destruct Hin as [Hin Hs]. subst x. simpl.
    destruct (find_product_in_stock (Product._id p) (product d)) as [p' |] eqn:Hf.
    + exists p', (Product._id p). split; [| exact Hf].
      apply ObjectId_round_trip. apply Hok. exact Hin.
    + exfalso. unfold find_product_in_stock in Hf.
      apply (find_none _ _ Hf) in Hin. rewrite N.eqb_refl, Hs in Hin. discriminate.
  - intros it p (o & Ho & Hf).
    apply find_product_in_stock_Some in Hf. destruct Hf as (Hin & Hid & Hs).
    exists {| Product.id := ObjectId_str (Product._id p);
              Product.listed_body := Product.body p |}.
    split.
    + apply in_map_iff. exists p. split; [reflexivity |].
      apply filter_In. split; assumption.
    + simpl. rewrite Ho, <- Hid. apply ObjectId_round_trip. apply Hok. exact Hin.
Qed.

Lemma listed_products_orderable_witness :
  (forall x qty,
      In x [ {| Product.id := shop_bananas_id;
                Product.listed_body :=
                  seed_product "Bananas" 0.79 "each" 200 "Produce" "bananas.png" |};
             {| Product.id := shop_mystery_id;
                Product.listed_body :=
                  {| Product.name := Some "Mystery box"; Product.price := None;
                     Product.unit := Some "each"; Product.stock := Some 5;
                     Product.image := None; Product.category := None;
                     Product.in_stock := Some true |} |} ] ->
      exists p, item_product shop_db (item (Product.id x) qty) p) /\
  (forall it p,
      item_product shop_db it p ->
      exists x,
        In x [ {| Product.id := shop_bananas_id;
                  Product.listed_body :=
                    seed_product "Bananas" 0.79 "each" 200 "Produce" "bananas.png" |};
               {| Product.id := shop_mystery_id;
                  Product.listed_body :=
                    {| Product.name := Some "Mystery box"; Product.price := None;
                       Product.unit := Some "each"; Product.stock := Some 5;
                       Product.image := None; Product.category := None;
                       Product.in_stock := Some true |} |} ] /\
        ObjectId_of_str (Product.id x) = ObjectId_of_str (OrderItem.product_id it)).
Proof.
  apply (listed_products_orderable shop_db).
  - repeat constructor; unfold ObjectId_ok; by_run.
  - by_run.
Defined.

(** ** Filling a slot *)

Lemma names_slot_after_order (d : Database) (payload : CreateOrderRequest.t)
      (s : Slot.doc) (doc : Order.fields) :
  names_slot d payload s ->
  names_slot (after_order d s doc) payload (inc_booked s).
Proof.
  intros (o & Ho & Hs). exists o. split; [exact Ho |].
  destruct (find_slot_split o (slot d) s Hs) as (_ & _ & _ & Hid & _ & _).
  simpl. rewrite Hid. apply find_slot_update_same. exact Hs.
Qed.

Lemma item_priced_same_products (d d' : Database) (it : OrderItem.t) :
  product d' = product d -> item_priced d it -> item_priced d' it.
Proof.
  intros Hp (p & x & (o & Ho & Hf) & Hx & Hi).
  exists p, x. repeat split; try assumption.
  exists o. split; [exact Ho | rewrite Hp; exact Hf].
Qed.

(** X12.  A slot takes exactly as many orders as it has places: with [n]
    not above the slot's [available], [n] consecutive orders on it whose
    items can all be ordered (product in stock with a stored price, quantity
    an integer the store can hold) are all accepted, they leave
    [available - n] places and [n] more order documents, and when [n] is all
    of [available] the next order is refused with "Selected slot is full". *)
Theorem slot_fills_up (n : nat) :
  forall (d : Database) (payload : CreateOrderRequest.t) (s : Slot.doc),
    names_slot d payload s ->
    Forall (item_priced d) (CreateOrderRequest.items payload) ->
    Z.of_nat n <= slot_available s ->
    exists d' s',
      place_orders n payload (Some d) = Some d' /\
      names_slot d' payload s' /\
      slot_available s' = slot_available s - Z.of_nat n /\
      List.length (order d') = (List.length (order d) + n)%nat /\
      (Z.of_nat n = slot_available s ->
       create_order payload (Some d')
       = (inl (HTTPException 400 "Selected slot is full"), Some d')).
Proof.
  induction n as [| k IH]; intros d payload s Hn Hp Hle.
  - exists d, s. simpl. repeat split; try assumption; try lia.
    intros Hz. destruct Hn as (o & Ho & Hs).
    rewrite create_order_run, Ho, Hs, <- Hz. reflexivity.
  - assert (Hav : 0 < slot_available s) by lia.
    destruct (create_order_accepted d payload s Hn Hav Hp) as (acc & _ & Hrun).
    set (d1 := after_order d s (order_doc_of payload acc)) in *.
    destruct (IH d1 payload (inc_booked s)) as (d' & s' & Hrun' & Hn' & Hav' & Hlen & Hfull).
    + apply names_slot_after_order. exact Hn.
    + apply Forall_impl with (2 := Hp). intros it.
      apply item_priced_same_products. reflexivity.
    + rewrite slot_available_inc_booked by exact Hav. lia.
    + exists d', s'. cbn [place_orders]. rewrite Hrun. unfold world_of. simpl snd.
      split; [exact Hrun' |]. split; [exact Hn' |].
      rewrite slot_available_inc_booked in Hav', Hfull by exact Hav.
      split; [lia |]. split.
      * rewrite Hlen. unfold d1. simpl. rewrite length_app. simpl. lia.
      * intros Hz. apply Hfull. lia.
Qed.

Lemma slot_fills_up_witness :
  exists d' s',
    place_orders 2 (request shop_slot16_id [item shop_bananas_id 2]) (Some shop_db)
    = Some d' /\
    names_slot d' (request shop_slot16_id [item shop_bananas_id 2]) s' /\
    slot_available s' = 2 - Z.of_nat 2 /\
    List.length (order d') = (List.length (order shop_db) + 2)%nat /\
    (Z.of_nat 2 = 2 ->
     create_order (request shop_slot16_id [item shop_bananas_id 2]) (Some d')
     = (inl (HTTPException 400 "Selected slot is full"), Some d')).
Proof.
  apply (slot_fills_up 2 shop_db (request shop_slot16_id [item shop_bananas_id 2])
           {| Slot._id := 16%N; Slot.body := seed_slot "Today 10:00" 2 0 |}).
  - exists 16%N. split; by_run.
  - constructor; [| constructor].
    apply (shop_bananas_priced 2). by_run.
  - discriminate.
Defined.

(** ** When an order is accepted, and which error refuses it *)






(** X15.  The slot is checked before anything else of the request: a
    malformed [slot_id] gives the 400 "Invalid ID format" and a well-formed
    one that names no slot gives the 404 "Slot not found", whatever the
    items are, and nothing is written. *)
Theorem create_order_slot_errors (d : Database) (payload : CreateOrderRequest.t) :
  (ObjectId_of_str (CreateOrderRequest.slot_id payload) = None ->
   create_order payload (Some d)
   = (inl (HTTPException 400 "Invalid ID format"), Some d)) /\
  (forall o, ObjectId_of_str (CreateOrderRequest.slot_id payload) = Some o ->
             (forall s, In s (slot d) -> Slot._id s <> o) ->
             create_order payload (Some d)
             = (inl (HTTPException 404 "Slot not found"), Some d)).
Proof.
  split.
  - intros Ho. rewrite create_order_run, Ho. reflexivity.
  - intros o Ho Hno. rewrite create_order_run, Ho.
    assert (Hf : find_slot o (slot d) = None).
    { unfold find_slot. destruct (find _ (slot d)) as [s |] eqn:E; [| reflexivity].
      apply find_some in E. destruct E as [Hin Heq]. apply N.eqb_eq in Heq.
      exfalso. apply (Hno s Hin Heq). }
    rewrite Hf. reflexivity.
Qed.

(** A string of 24 characters with blanks between pairs of digits is read
    as an identifier of fewer than 12 bytes: [oid] lets it through, and it
    names no slot of a store whose identifiers have 12 bytes. *)
Example create_order_blank_slot_id :
  String.length "00000000 00000000 000010" = 24%nat /\
  oid "00000000 00000000 000010" (Some shop_db)
  = (inr (2 ^ 96 + 2 ^ 88 + 16)%N, Some shop_db) /\
  create_order (request "00000000 00000000 000010" [item shop_bananas_id 1]) (Some shop_db)
  = (inl (HTTPException 404 "Slot not found"), Some shop_db).
Proof. repeat split; by_run. Qed.

(** ** The diagnostic endpoint *)

(** X16.  [GET /test] always answers and never writes the store.  The
    backend is reported as running; the two provisional database states
    ("Not Available", "Available") never reach the caller; the connection
    is reported as "Connected" exactly when a database handle exists; and a
    variable of the environment counts as set only when it is a non-empty
    string. *)
Theorem test_database_report (getenv : string -> option string)
        (outcome : list string + list string) (w : World) :
  exists r,
    test_database getenv outcome w = (inr r, w) /\
    backend r = "✅ Running" /\
    database r <> "❌ Not Available" /\
    database r <> "✅ Available" /\
    (connection_status r = "Connected" <-> w <> None) /\
    (w = None ->
     database r = "⚠️  Available but not initialized" /\
     database_url r = None /\ database_name r = None) /\
    (w <> None ->
     (database_url r = Some "✅ Set" <->
      exists c v, getenv "DATABASE_URL" = Some (String c v)) /\
     (database_name r = Some "✅ Set" <->
      exists c v, getenv "DATABASE_NAME" = Some (String c v))).
Proof.
  assert (Henv : forall v : option string,
             Some (if env_set v then "✅ Set" else "❌ Not Set") = Some "✅ Set"
             <-> exists c t, v = Some (String c t)).
  { intros [[| c t] |]; simpl; split; intros H;
      try discriminate H; try (destruct H as (c' & t' & H); discriminate H).
    exists c, t. reflexivity. reflexivity. }
  eexists. split; [reflexivity |].
  destruct w as [d |]; cbn [test_database].
  - destruct outcome as [e | names]; simpl;
      (split; [reflexivity |]); (split; [discriminate |]); (split; [discriminate |]);
      (split; [split; [discriminate | reflexivity] |]);
      (split; [intros H; discriminate H |]);
      intros _; split; apply Henv.
  - simpl. split; [reflexivity |]. split; [discriminate |]. split; [discriminate |].
    split; [split; [discriminate | intros H; exfalso; apply H; reflexivity] |].
    split; [intros _; repeat split |].
    intros H. exfalso. apply H. reflexivity.
Qed.

(** X17.  [GET /test] lists at most ten collections: the list it returns
    is the first ten names the database gave (all of them when there are
    no more than ten), and it is empty unless the database was reached and
    reported as "Connected & Working". *)
Theorem test_database_collections (getenv : string -> option string)
        (outcome : list string + list string) (w : World) :
  exists r,
    test_database getenv outcome w = (inr r, w) /\
    (List.length (collections r) <= 10)%nat /\
    (forall names, w <> None -> outcome = inr names ->
                   (exists rest, names = (collections r ++ rest)%list) /\
                   ((List.length names <= 10)%nat -> collections r = names) /\
                   ((10 <= List.length names)%nat ->
                    List.length (collections r) = 10%nat)) /\
    (collections r <> [] -> database r = "✅ Connected & Working").
Proof.
  eexists. split; [reflexivity |].
  destruct w as [d |]; [destruct outcome as [e | names] |]; cbn -[firstn].
  - split; [lia |]. split; [intros names _ H; discriminate H |].
    intros H. exfalso. apply H. reflexivity.
  - split; [apply firstn_le_length |]. split; [| reflexivity].
    intros names' _ H. inversion H; subst names'; clear H.
    split; [exists (skipn 10 names); symmetry; apply firstn_skipn |].
    split; [apply firstn_all2 | apply firstn_length_le].
  - split; [lia |]. split; [intros names H; exfalso; apply H; reflexivity |].
    intros H. exfalso. apply H. reflexivity.
Qed.
